(** * Nervi: scripts/coverage.py

    A shallow embedding of the test-coverage script of the Nervi OpenSCAD
    library, and the properties of its declaration collector, test
    correlator and report printer.

    The script is one linear pipeline over two directory listings.  Its
    input here is what [os.listdir] and [f.readlines()] hand to it: for each
    directory the list of its entries in listing order, each entry being a
    file name and the list of its lines (every line with its line
    terminator, as [readlines] returns it).  Characters are code points
    below 256.  Its output is the list of lines written to standard output
    and the way the process ends (normally, or with an uncaught
    exception). *)

From Stdlib Require Import ZArith List String Ascii DecimalString.
From Stdlib Require Import Floats.SpecFloat.
From stdpp Require Import gmap strings list fin_maps sorting.

Local Open Scope string_scope.
Local Open Scope list_scope.

(** ** Python [str] methods used by the script *)

Module Str.

(** [s.startswith(p)] *)
Definition startswith (p s : string) : bool := String.prefix p s.

(** [s.endswith(p)] *)
Definition endswith (p s : string) : bool :=
  String.prefix (String.rev p) (String.rev s).

(** [s[n:]] *)
Fixpoint slice_from (n : nat) (s : string) : string :=
  match n, s with
  | O, _ => s
  | S _, EmptyString => EmptyString
  | S n', String _ r => slice_from n' r
  end.

(** [c.isspace()], for the code points below 256: TAB, LF, VT, FF, CR,
    the separators FS, GS, RS, US, the space, NEL and the no-break
    space. *)
Definition isspace (c : ascii) : bool :=
  let n := nat_of_ascii c in
  ((9 <=? n) && (n <=? 13) || (28 <=? n) && (n <=? 32)
   || (n =? 133) || (n =? 160))%nat.

(** [s.lstrip()] *)
Fixpoint lstrip (s : string) : string :=
  match s with
  | EmptyString => EmptyString
  | String c r => if isspace c then lstrip r else s
  end.

(** [s.rstrip()] *)
Fixpoint rstrip (s : string) : string :=
  match s with
  | EmptyString => EmptyString
  | String c r =>
      match rstrip r with
      | EmptyString => if isspace c then EmptyString else String c EmptyString
      | r' => String c r'
      end
  end.

(** [s.strip()] *)
Definition strip (s : string) : string := rstrip (lstrip s).

(** [s.split(sep, maxsplit)] for a one-character separator: at most
    [maxsplit] cuts, from the left. *)
Fixpoint splitn (sep : ascii) (maxsplit : nat) (s : string) : list string :=
  match s with
  | EmptyString => [EmptyString]
  | String c r =>
      match maxsplit with
      | O => [s]
      | S m =>
          if Ascii.eqb c sep then EmptyString :: splitn sep m r
          else match splitn sep maxsplit r with
               | h :: t => String c h :: t
               | [] => [String c EmptyString]
               end
      end
  end.

(** [s.split(sep)]: no limit on the number of cuts. *)
Definition split (sep : ascii) (s : string) : list string :=
  splitn sep (String.length s) s.

(** [s.capitalize()] on ASCII text: first character upper-cased, the
    others lower-cased. *)
Definition upper (c : ascii) : ascii :=
  let n := nat_of_ascii c in
  if ((97 <=? n) && (n <=? 122))%nat then ascii_of_nat (n - 32) else c.

Definition lower (c : ascii) : ascii :=
  let n := nat_of_ascii c in
  if ((65 <=? n) && (n <=? 90))%nat then ascii_of_nat (n + 32) else c.

Fixpoint lower_all (s : string) : string :=
  match s with
  | EmptyString => EmptyString
  | String c r => String (lower c) (lower_all r)
  end.

Definition capitalize (s : string) : string :=
  match s with
  | EmptyString => EmptyString
  | String c r => String (upper c) (lower_all r)
  end.

(** [str(n)] for a non-negative integer *)
Definition of_N (n : N) : string :=
  NilZero.string_of_uint (N.to_uint n).

Definition of_nat (n : nat) : string := of_N (N.of_nat n).

End Str.

(** ** Uncaught exceptions, standard output *)

Inductive exn := IndexError | KeyError | OverflowError | ZeroDivisionError.

Inductive result (A : Type) :=
| Ok (a : A)
| Raise (e : exn).
Arguments Ok {A} a.
Arguments Raise {A} e.

(** A computation takes the lines printed so far and gives its result with
    the lines printed once it is over; what was printed before an
    exception stays printed. *)
Definition M (A : Type) : Type := list string -> result A * list string.

#[global] Instance M_ret : MRet M := fun A a out => (Ok a, out).

#[global] Instance M_bind : MBind M := fun A B f c out =>
  match c out with
  | (Ok a, out') => f a out'
  | (Raise e, out') => (Raise e, out')
  end.

Definition raise {A} (e : exn) : M A := fun out => (Raise e, out).

(** [print(line)] *)
Definition print (line : string) : M unit := fun out => (Ok tt, out ++ [line]).

(** [for x in l: s = body x s] *)
Fixpoint for_each {A S : Type} (body : A -> S -> M S) (l : list A) (s : S)
  : M S :=
  match l with
  | [] => mret s
  | x :: l' => s' ← body x s; for_each body l' s'
  end.

(** [l[i]] *)
Definition getitem {A} (l : list A) (i : nat) : M A :=
  match l !! i with
  | Some x => mret x
  | None => raise IndexError
  end.

(** [enumerate(l)] *)
Definition enumerate {A} (l : list A) : list (nat * A) :=
  zip (seq 0 (length l)) l.

(** [sorted(l, key=key)]: a stable sort, ascending in the key. *)
Section sorted.
Context {A K : Type} (leb : K -> K -> bool) (key : A -> K).

Fixpoint insert_sorted (x : A) (l : list A) : list A :=
  match l with
  | [] => [x]
  | y :: l' =>
      if leb (key x) (key y) then x :: l else y :: insert_sorted x l'
  end.

Definition sorted (l : list A) : list A := foldr insert_sorted [] l.
End sorted.

(** ** Insertion-ordered dictionaries

    [uncovered_by_file] is iterated in insertion order, so it is kept as
    an association list: a new key goes to the end, an assignment to a
    present key keeps its place. *)
Module Dict.
Section dict.
Context {V : Type}.
Definition t := list (string * V).

(** The value bound to [k], if any. *)
Fixpoint find (k : string) (d : t) : option V :=
  match d with
  | [] => None
  | (k', v) :: d' => if String.eqb k' k then Some v else find k d'
  end.

(** [k in d] *)
Definition contains (k : string) (d : t) : bool :=
  match find k d with Some _ => true | None => false end.

(** [d[k]] *)
Definition get (k : string) (d : t) : M V :=
  match find k d with
  | Some v => mret v
  | None => raise KeyError
  end.

(** [d[k] = v] *)
Fixpoint set (k : string) (v : V) (d : t) : t :=
  match d with
  | [] => [(k, v)]
  | (k', v') :: d' =>
      if String.eqb k' k then (k, v) :: d' else (k', v') :: set k v d'
  end.

(** [d.keys()] *)
Definition keys (d : t) : list string := d.*1.
End dict.
Arguments t : clear implicits.
End Dict.

(** ** Python [float] arithmetic: IEEE 754 binary64 *)
Module Float.
Definition prec : Z := 53.
Definition emax : Z := 1024.

(** The literal [100.0] *)
Definition hundred : spec_float := binary_normalize prec emax 100 0 false.

(** Conversion of an [int] operand of a float operation: the nearest
    double, or [OverflowError] when that is out of range. *)
Definition of_int (n : Z) : M spec_float :=
  match binary_normalize prec emax n 0 false with
  | S754_infinity _ => raise OverflowError
  | x => mret x
  end.

(** [a * b] *)
Definition mul (a b : spec_float) : spec_float := SFmul prec emax a b.

(** [a / b] *)
Definition truediv (a b : spec_float) : M spec_float :=
  match b with
  | S754_zero _ => raise ZeroDivisionError
  | _ => mret (SFdiv prec emax a b)
  end.

(** [round(x * 100)] to the nearest integer, ties to even, for the
    magnitude [m * 2^e] *)
Definition centi (m : positive) (e : Z) : Z :=
  match e with
  | Zneg p =>
      let num := (Zpos m * 100)%Z in
      let den := (2 ^ Zpos p)%Z in
      let q := (num / den)%Z in
      let r := (num mod den)%Z in
      if (den <? 2 * r)%Z || ((den =? 2 * r)%Z && Z.odd q)
      then (q + 1)%Z else q
  | _ => (Zpos m * 2 ^ e * 100)%Z
  end.

Definition two_digits (n : Z) : string :=
  Str.of_N (Z.to_N (n / 10)) +:+ Str.of_N (Z.to_N (n mod 10)).

(** [f"{x:.2f}"] *)
Definition format_2f (x : spec_float) : string :=
  match x with
  | S754_nan => "nan"
  | S754_infinity s => if s then "-inf" else "inf"
  | S754_zero s => if s then "-0.00" else "0.00"
  | S754_finite s m e =>
      let c := centi m e in
      (if s then "-" else "") +:+ Str.of_N (Z.to_N (c / 100)) +:+ "."
      +:+ two_digits (c mod 100)
  end.
End Float.

(** ** The script *)

(** A directory entry: its name and the lines of the file. *)
Abbreviation file := (string * list string)%type.

(** A registry value: the tuple [(filename, linenum+1, item_type)]. *)
Abbreviation entry := (string * nat * string)%type.

Definition SRC_EXT : string := ".scad".

(** [line[skip:].strip().split("(")[0].strip()]; [split] never returns an
    empty list, so the subscript [0] cannot fail. *)
Definition extract (skip : nat) (line : string) : string :=
  Str.strip (hd "" (Str.split "(" (Str.strip (Str.slice_from skip line)))).

(** *** Declaration collector (lines 11-27) *)

(** [line.startswith(("module ", "function "))] *)
Definition is_declaration (line : string) : bool :=
  Str.startswith "module " line || Str.startswith "function " line.

Definition item_name (line : string) : string :=
  let is_module := Str.startswith "module " line in
  extract (if is_module then 7 else 9) line.

Definition item_type_of (line : string) : string :=
  let is_module := Str.startswith "module " line in
  if is_module then "module" else "function".

(** The two lines of the duplicate warning. *)
Definition redefined_at (item_type itemname filename : string) (lineno : nat)
  : string :=
  "WARNING!!! " +:+ Str.capitalize item_type +:+ " " +:+ itemname
  +:+ " re-defined at " +:+ filename +:+ ":" +:+ Str.of_nat lineno.

Definition previously_at (filename : string) (lineno : nat) : string :=
  "           Previously defined at " +:+ filename +:+ ":"
  +:+ Str.of_nat lineno.

Definition collect_line (filename : string) (ln : nat * string)
    (items : gmap string entry) : M (gmap string entry) :=
  let '(linenum, line) := ln in
  if is_declaration line then
    let itemname := item_name line in
    if Str.startswith "_" itemname then mret items
    else
      let item_type := item_type_of line in
      match items !! itemname with
      | Some (prev_file, prev_line, _) =>
          print (redefined_at item_type itemname filename (linenum + 1));;
          print (previously_at prev_file prev_line);;
          mret items
      | None => mret (<[itemname := (filename, linenum + 1, item_type)]> items)
      end
  else mret items.

Definition collect_file (f : file) (items : gmap string entry)
  : M (gmap string entry) :=
  let '(filename, lines) := f in
  if Str.endswith SRC_EXT filename
  then for_each (collect_line filename) (enumerate lines) items
  else mret items.

Definition collect (src_dir : list file) : M (gmap string entry) :=
  for_each collect_file src_dir ∅.

(** *** Test correlator (lines 29-46) *)

(** The two dictionaries the correlator updates. *)
Record coverage := Coverage {
  covered : gmap string entry;
  uncovered : gmap string entry
}.

(** The two lines of the mismatch warning. *)
Definition defined_at (item_type itemname src_filename : string)
    (src_line : nat) : string :=
  "WARNING!!! " +:+ Str.capitalize item_type +:+ " " +:+ itemname
  +:+ " defined at " +:+ src_filename +:+ ":" +:+ Str.of_nat src_line.

Definition tested_at (filename : string) (lineno : nat) : string :=
  "           but tested at " +:+ filename +:+ ":" +:+ Str.of_nat lineno.

Definition correlate_line (filename : string) (ln : nat * string)
    (c : coverage) : M coverage :=
  let '(linenum, line) := ln in
  if Str.startswith "module " line then
    let testmodule := extract 7 line in
    if Str.startswith "test_" testmodule then
      itemname ← getitem (Str.splitn "_" 1 testmodule) 1;
      match uncovered c !! itemname with
      | Some (src_filename, src_line, item_type) =>
          (if bool_decide (filename ≠ "test_" +:+ src_filename) then
             print (defined_at item_type itemname src_filename src_line);;
             print (tested_at filename (linenum + 1))
           else mret tt);;
          mret (Coverage
                  (<[itemname := (filename, linenum + 1, item_type)]>
                     (covered c))
                  (delete itemname (uncovered c)))
      | None => mret c
      end
    else mret c
  else mret c.

Definition correlate_file (f : file) (c : coverage) : M coverage :=
  let '(filename, lines) := f in
  if Str.startswith "test_" filename && Str.endswith SRC_EXT filename
  then for_each (correlate_line filename) (enumerate lines) c
  else mret c.

Definition correlate (test_dir : list file) (items : gmap string entry)
  : M coverage :=
  for_each correlate_file test_dir (Coverage ∅ items).

(** *** Report printer (lines 48-71) *)

(** An uncovered item as listed under its file: [(itemname, item_type)]. *)
Abbreviation listed := (string * string)%type.

Definition group_item (uncovered : gmap string entry) (itemname : string)
    (by_file : Dict.t (list listed)) : M (Dict.t (list listed)) :=
  match uncovered !! itemname with
  | None => raise KeyError
  | Some (filename, _, item_type) =>
      let by_file :=
        if Dict.contains filename by_file then by_file
        else Dict.set filename [] by_file in
      fileitems ← Dict.get filename by_file;
      mret (Dict.set filename (fileitems ++ [(itemname, item_type)]) by_file)
  end.

(** [sorted(list(uncovered.keys()))] *)
Definition sorted_keys (uncovered : gmap string entry) : list string :=
  sorted String.leb id (map_to_list uncovered).*1.

(** [uncovered_by_file] *)
Definition group_by_file (uncovered : gmap string entry)
  : M (Dict.t (list listed)) :=
  for_each (group_item uncovered) (sorted_keys uncovered) [].

(** [mostest] *)
Definition count_files (by_file : Dict.t (list listed))
  : M (list (nat * string)) :=
  for_each (fun filename mostest =>
              fileitems ← Dict.get filename by_file;
              mret (mostest ++ [(length fileitems, filename)]))
           (Dict.keys by_file) [].

Definition group_header (filename : string) (cnt : nat) : string :=
  "  " +:+ filename +:+ ": " +:+ Str.of_nat cnt +:+ " uncovered items".

Definition item_line (it : listed) : string :=
  let '(itemname, item_type) := it in
  "    " +:+ item_type +:+ " " +:+ itemname.

Definition print_group (by_file : Dict.t (list listed)) (g : nat * string)
    (_ : unit) : M unit :=
  let '(cnt, filename) := g in
  fileitems ← Dict.get filename by_file;
  print (group_header filename cnt);;
  for_each (fun it _ => print (item_line it)) fileitems tt.

Definition print_uncovered (uncovered : gmap string entry) : M unit :=
  by_file ← group_by_file uncovered;
  mostest ← count_files by_file;
  print "NOT COVERED:";;
  for_each (print_group by_file) (sorted Nat.leb fst mostest) tt.

(** The aggregate line. *)
Definition total_line (covitems totitems : nat) (pct : spec_float) : string :=
  "Total coverage: " +:+ Str.of_nat covitems +:+ " of "
  +:+ Str.of_nat totitems +:+ " items (" +:+ Float.format_2f pct +:+ "%)".

Definition print_total (items covered : gmap string entry) : M unit :=
  let totitems := size items in
  let covitems := size covered in
  c ← Float.of_int (Z.of_nat covitems);
  t ← Float.of_int (Z.of_nat totitems);
  pct ← Float.truediv (Float.mul Float.hundred c) t;
  print (total_line covitems totitems pct).

(** *** The whole run *)

Definition main (src_dir test_dir : list file) : M unit :=
  items ← collect src_dir;
  c ← correlate test_dir items;
  print_uncovered (uncovered c);;
  print_total items (covered c).

(** What a run leaves behind: how it ended and what it printed. *)
Definition run (src_dir test_dir : list file) : result unit * list string :=
  main src_dir test_dir [].

(** The line terminator of the lines [readlines] returns. *)
Definition LF : string := String "010" "".

(** [len()] of a container is at most [sys.maxsize]. *)
Definition PY_SSIZE_T_MAX : Z := 2 ^ 63 - 1.

(** * Vocabulary of the properties

    What one turn of a loop does, what the loops keep true, and the
    contents of the report. *)

(** What one turn of the collector loop does. *)
Inductive collect_step (filename : string) (linenum : nat) (line : string)
    (items : gmap string entry) (out : list string)
  : gmap string entry -> list string -> Prop :=
| collect_skip :
    is_declaration line = false \/ Str.startswith "_" (item_name line) = true ->
    collect_step filename linenum line items out items out
| collect_warn prev_file prev_line prev_type :
    Str.startswith "_" (item_name line) = false ->
    items !! item_name line = Some (prev_file, prev_line, prev_type) ->
    collect_step filename linenum line items out items
      (out ++ [redefined_at (item_type_of line) (item_name line) filename
                 (linenum + 1);
               previously_at prev_file prev_line])
| collect_add :
    Str.startswith "_" (item_name line) = false ->
    items !! item_name line = None ->
    collect_step filename linenum line items out
      (<[item_name line := (filename, linenum + 1, item_type_of line)]> items)
      out.

(** No key of the registry starts with an underscore. *)
Definition public_keys (items : gmap string entry) : Prop :=
  forall k, is_Some (items !! k) -> Str.startswith "_" k = false.

(** The state after a test of [itemname] was found at [filename:lineno]. *)
Definition cover (itemname filename : string) (lineno : nat)
    (item_type : string) (c : coverage) : coverage :=
  Coverage (<[itemname := (filename, lineno, item_type)]> (covered c))
           (delete itemname (uncovered c)).

(** The mismatch warning, when the test file is not named after the
    source file. *)
Definition mismatch (filename : string) (linenum : nat) (itemname : string)
    (e : entry) : list string :=
  let '(src_filename, src_line, item_type) := e in
  if bool_decide (filename ≠ "test_" +:+ src_filename)
  then [defined_at item_type itemname src_filename src_line;
        tested_at filename (linenum + 1)]
  else [].

(** What one turn of the correlator loop does. *)
Inductive correlate_step (filename : string) (linenum : nat) (line : string)
    (c : coverage) (out : list string) : coverage -> list string -> Prop :=
| correlate_skip :
    correlate_step filename linenum line c out c out
| correlate_cover itemname e :
    Str.startswith "module " line = true ->
    extract 7 line = "test_" +:+ itemname ->
    uncovered c !! itemname = Some e ->
    correlate_step filename linenum line c out
      (cover itemname filename (linenum + 1) e.2 c)
      (out ++ mismatch filename linenum itemname e).

(** Covered and uncovered names split the registry. *)
Definition splits (items : gmap string entry) (c : coverage) : Prop :=
  dom (covered c) ## dom (uncovered c)
  /\ dom (covered c) ∪ dom (uncovered c) = dom items
  /\ uncovered c ⊆ items.

(** The order [sorted leb key] puts the elements in. *)
Definition key_le {A K : Type} (leb : K -> K -> bool) (key : A -> K)
    (x y : A) : Prop :=
  leb (key x) (key y) = true.

(** One turn of the grouping loop, for an item of file [filename]. *)
Definition add_item (filename : string) (it : listed)
    (by_file : Dict.t (list listed)) : Dict.t (list listed) :=
  match Dict.find filename by_file with
  | Some fileitems => Dict.set filename (fileitems ++ [it]) by_file
  | None => Dict.set filename [it] (Dict.set filename [] by_file)
  end.

(** The grouping loop over items tagged with their file. *)
Definition grouped (tagged : list (string * listed))
    (by_file : Dict.t (list listed)) : Dict.t (list listed) :=
  fold_left (fun d t => add_item t.1 t.2 d) tagged by_file.

(** The items of file [filename], in the order of the tagged list. *)
Definition items_of (filename : string) (tagged : list (string * listed))
  : list listed :=
  (filter (fun t => t.1 = filename) tagged).*2.

(** An uncovered name with its file and kind. *)
Definition tag (uncovered : gmap string entry) (itemname : string)
  : option (string * listed) :=
  (fun e : entry => (e.1.1, (itemname, e.2))) <$> uncovered !! itemname.

(** [uncovered_by_file] at the end of the grouping loop. *)
Definition by_file_of (unc : gmap string entry) : Dict.t (list listed) :=
  grouped (omap (tag unc) (sorted_keys unc)) [].

(** The entry of [mostest] for a group. *)
Definition counted (g : string * list listed) : nat * string :=
  (length g.2, g.1).

(** The lines printed for a group. *)
Definition render (g : string * list listed) : list string :=
  group_header g.1 (length g.2) :: map item_line g.2.

(** The groups in the order they are printed. *)
Definition report_groups (unc : gmap string entry)
  : list (string * list listed) :=
  map (fun g : nat * string =>
         (g.2, default [] (Dict.find g.2 (by_file_of unc))))
      (sorted Nat.leb fst (map counted (by_file_of unc))).

(** A line of a duplicate warning about a public name. *)
Definition duplicate_line (l : string) : Prop :=
  (exists item_type itemname filename lineno,
     Str.startswith "_" itemname = false
     /\ l = redefined_at item_type itemname filename lineno)
  \/ (exists filename lineno, l = previously_at filename lineno).

(** What holds of the registry and of the output during the scan of the
    source directory: the names are public, the warnings are about public
    names, and nothing was printed while the registry was empty. *)
Definition scanned (items : gmap string entry) (out : list string) : Prop :=
  public_keys items /\ Forall duplicate_line out /\ (items = ∅ -> out = []).

(** What holds during the scan of the test directory, started with the
    output [out0]: covered and uncovered names split the registry, and an
    empty registry gets no test. *)
Definition correlated (items : gmap string entry) (out0 : list string)
    (c : coverage) (out : list string) : Prop :=
  splits items c /\ (items = ∅ -> out = out0).

(** No character of [p] is the separator. *)
Fixpoint free_of (sep : ascii) (p : string) : bool :=
  match p with
  | EmptyString => true
  | String c p' => negb (Ascii.eqb c sep) && free_of sep p'
  end.

(** ** The lines the loops read

    The two scans are nested loops, over the entries of a directory and
    over the lines of an entry; the properties of a whole scan are stated
    over the lines in the order they are read. *)

(** A line with its place: [(filename, (linenum, line))]. *)
Abbreviation located := (string * (nat * string))%type.

(** The lines of an entry, each with the name of the entry and its index. *)
Definition located_lines (f : file) : list located :=
  map (pair f.1) (enumerate f.2).

(** [filename.endswith(".scad")] *)
Definition is_source (f : file) : bool := Str.endswith SRC_EXT f.1.

(** [filename.startswith("test_") and filename.endswith(".scad")] *)
Definition is_test_file (f : file) : bool :=
  Str.startswith "test_" f.1 && Str.endswith SRC_EXT f.1.

(** The lines the collector reads, in the order it reads them. *)
Definition source_lines (src_dir : list file) : list located :=
  flat_map located_lines (filter (fun f => is_source f) src_dir).

(** The lines the correlator reads, in the order it reads them. *)
Definition test_lines (test_dir : list file) : list located :=
  flat_map located_lines (filter (fun f => is_test_file f) test_dir).

(** One turn of the collector, and of the correlator, on a located line. *)
Definition collect_located (l : located) (items : gmap string entry)
  : M (gmap string entry) :=
  collect_line l.1 l.2 items.

Definition correlate_located (l : located) (c : coverage) : M coverage :=
  correlate_line l.1 l.2 c.

(** The line is a declaration of [name]. *)
Definition declares (name : string) (l : located) : bool :=
  is_declaration l.2.2 && String.eqb (item_name l.2.2) name.

(** The line is a declaration of a name without a leading underscore. *)
Definition is_public_declaration (l : located) : bool :=
  is_declaration l.2.2 && negb (Str.startswith "_" (item_name l.2.2)).

(** The registry value for a declaration line. *)
Definition entry_of (l : located) : entry :=
  (l.1, l.2.1 + 1, item_type_of l.2.2).

(** The first declaration of [name] among the lines. *)
Definition first_declaration (name : string) (ls : list located)
  : option entry :=
  entry_of <$> List.find (declares name) ls.

(** The line is a test module for [name]. *)
Definition tests (name : string) (l : located) : bool :=
  Str.startswith "module " l.2.2
  && String.eqb (extract 7 l.2.2) ("test_" +:+ name).

(** The first test of [name] among the lines. *)
Definition first_test (name : string) (ls : list located) : option located :=
  List.find (tests name) ls.

(** The coverage record of [name] is in a file that is not named after
    the file that declares [name]. *)
Definition misnamed (items : gmap string entry) (kv : string * entry)
  : Prop :=
  match items !! kv.1 with
  | Some e => kv.2.1.1 ≠ "test_" +:+ e.1.1
  | None => False
  end.

#[global] Instance misnamed_dec items kv : Decision (misnamed items kv).
Proof. unfold misnamed. destruct (items !! kv.1); apply _. Defined.

(** The name has no white space at either end. *)
Definition stripped (s : string) : Prop := Str.strip s = s.

(** What the scan of the source directory has done after the lines
    [pre]: the registry holds the first declaration of every public name,
    and every public declaration either entered the registry or was
    answered by the two lines of a warning. *)
Definition collected (pre : list located) (items : gmap string entry)
    (out : list string) : Prop :=
  (forall name,
     items !! name
     = if Str.startswith "_" name then None else first_declaration name pre)
  /\ 2 * size items + length out
     = 2 * length (filter (fun l => is_public_declaration l) pre).

(** What the scan of the test directory has done after the lines [pre],
    from the registry [items] and the output [out0]: a name is covered by
    its first test, with the kind of its declaration; it is uncovered, with
    its registry entry, as long as it has no test; and what was printed is
    two lines for every coverage record in a misnamed file. *)
Definition correlated_lines (items : gmap string entry) (out0 : list string)
    (pre : list located) (c : coverage) (out : list string) : Prop :=
  (forall name,
     covered c !! name
     = match items !! name, first_test name pre with
       | Some e, Some l => Some (l.1, l.2.1 + 1, e.2)
       | _, _ => None
       end)
  /\ (forall name,
        uncovered c !! name
        = match first_test name pre with
          | Some _ => None
          | None => items !! name
          end)
  /\ exists warnings,
       out = out0 ++ warnings
       /\ length warnings = 2 * size (filter (misnamed items) (covered c)).

(** The number of items a dictionary of groups holds. *)
Definition group_total (d : Dict.t (list listed)) : nat :=
  sum_list_with (fun g : string * list listed => length g.2) d.

(** * Properties *)

(** ** Sequencing and loops *)

Section monad_facts.
Context {A B : Type}.

Lemma bind_ok (c : M A) (f : A -> M B) out a out' :
  c out = (Ok a, out') -> (c ≫= f) out = f a out'.
Proof. intros H. unfold mbind, M_bind. by rewrite H. Qed.

Lemma bind_raise (c : M A) (f : A -> M B) out e out' :
  c out = (Raise e, out') -> (c ≫= f) out = (Raise e, out').
Proof. intros H. unfold mbind, M_bind. by rewrite H. Qed.

Lemma bind_ret (a : A) (f : A -> M B) out : (mret a ≫= f) out = f a out.
Proof. reflexivity. Qed.

Lemma bind_print line (f : unit -> M B) out :
  (print line ≫= f) out = f tt (out ++ [line]).
Proof. reflexivity. Qed.
End monad_facts.

Section loop_facts.
Context {A S : Type} (body : A -> S -> M S).

Lemma for_each_cons_ok x l s out s' out' :
  body x s out = (Ok s', out') ->
  for_each body (x :: l) s out = for_each body l s' out'.
Proof. intros H. simpl. by apply bind_ok. Qed.

Lemma for_each_app l1 l2 s out :
  for_each body (l1 ++ l2) s out
  = (for_each body l1 s ≫= for_each body l2) out.
Proof.
  revert s out. induction l1 as [|x l1 IH]; intros s out; [done|].
  simpl. unfold mbind, M_bind in *.
  destruct (body x s out) as [[s'|e] out']; [apply IH|done].
Qed.

(** A loop whose every turn keeps [inv] and ends well, ends well and
    keeps [inv]. *)
Lemma for_each_inv (inv : S -> list string -> Prop) l :
  (forall x s out, x ∈ l -> inv s out ->
     exists s' out', body x s out = (Ok s', out') /\ inv s' out') ->
  forall s out, inv s out ->
    exists s' out', for_each body l s out = (Ok s', out') /\ inv s' out'.
Proof.
  induction l as [|x l IH]; intros Hbody s out Hinv.
  - by exists s, out.
  - destruct (Hbody x s out) as (s1 & out1 & Hx & Hinv1);
      [by left|done|].
    destruct (IH (fun y s out Hy => Hbody y s out (list_elem_of_further _ _ _ Hy))
                s1 out1 Hinv1) as (s2 & out2 & Hl & Hinv2).
    exists s2, out2. split; [|done].
    by rewrite (for_each_cons_ok _ _ _ _ _ _ Hx).
Qed.

(** A loop whose turns do nothing does nothing. *)
Lemma for_each_skip l s out :
  (forall x, x ∈ l -> body x s out = (Ok s, out)) ->
  for_each body l s out = (Ok s, out).
Proof.
  induction l as [|x l IH]; intros Hbody; [done|].
  rewrite (for_each_cons_ok _ _ _ _ _ _ (Hbody x (list_elem_of_here _ _))).
  apply IH. intros y Hy. apply Hbody. by right.
Qed.
End loop_facts.

(** ** Strings *)

Lemma startswith_split p s :
  Str.startswith p s = true -> s = p +:+ Str.slice_from (String.length p) s.
Proof.
  unfold Str.startswith. revert s.
  induction p as [|a p IH]; intros [|b s]; simpl; try done.
  destruct (ascii_dec a b) as [->|]; [|done].
  intros H. unfold String.app. simpl. f_equal. by apply IH.
Qed.

Lemma startswith_app p s : Str.startswith p (p +:+ s) = true.
Proof.
  unfold Str.startswith, String.app.
  induction p as [|a p IH]; simpl; [by destruct s|].
  by destruct (ascii_dec a a).
Qed.

Lemma splitn_0 sep s : Str.splitn sep 0 s = [s].
Proof. by destruct s. Qed.

Lemma splitn_nonempty sep n s : Str.splitn sep n s ≠ [].
Proof.
  revert n. induction s as [|c s IH]; intros n; simpl; [done|].
  destruct n; [done|]. destruct (Ascii.eqb c sep); [done|].
  by destruct (Str.splitn sep (S n) s).
Qed.

Lemma split_nonempty sep s : Str.split sep s ≠ [].
Proof. apply splitn_nonempty. Qed.

(** The subscript [[1]] in [testmodule.split("_", 1)[1]] is guarded by
    [testmodule.startswith("test_")]: it never fails, and yields the text
    after the marker. *)
Lemma split_test_prefix testmodule :
  Str.startswith "test_" testmodule = true ->
  Str.splitn "_" 1 testmodule = ["test"; Str.slice_from 5 testmodule].
Proof.
  intros H. apply startswith_split in H. rewrite H at 1.
  unfold String.app. simpl. by rewrite splitn_0.
Qed.

(** ** The declaration collector, one line at a time *)

Section collect_line_cases.
Context (filename : string) (linenum : nat) (line : string).
Context (items : gmap string entry) (out : list string).

Lemma collect_line_other :
  is_declaration line = false ->
  collect_line filename (linenum, line) items out = (Ok items, out).
Proof. intros H. unfold collect_line. by rewrite H. Qed.

Lemma collect_line_private :
  is_declaration line = true ->
  Str.startswith "_" (item_name line) = true ->
  collect_line filename (linenum, line) items out = (Ok items, out).
Proof.
  intros H1 H2. unfold collect_line. cbv zeta. by rewrite H1, H2.
Qed.

Lemma collect_line_duplicate prev_file prev_line prev_type :
  is_declaration line = true ->
  Str.startswith "_" (item_name line) = false ->
  items !! item_name line = Some (prev_file, prev_line, prev_type) ->
  collect_line filename (linenum, line) items out
  = (Ok items,
     out ++ [redefined_at (item_type_of line) (item_name line) filename
               (linenum + 1);
             previously_at prev_file prev_line]).
Proof.
  intros H1 H2 H3. unfold collect_line. cbv zeta. rewrite H1, H2, H3.
  rewrite !bind_print. simpl. by rewrite <- app_assoc.
Qed.

Lemma collect_line_new :
  is_declaration line = true ->
  Str.startswith "_" (item_name line) = false ->
  items !! item_name line = None ->
  collect_line filename (linenum, line) items out
  = (Ok (<[item_name line := (filename, linenum + 1, item_type_of line)]>
           items), out).
Proof.
  intros H1 H2 H3. unfold collect_line. cbv zeta. by rewrite H1, H2, H3.
Qed.
End collect_line_cases.

Lemma collect_line_step filename linenum line items out :
  exists items' out',
    collect_line filename (linenum, line) items out = (Ok items', out')
    /\ collect_step filename linenum line items out items' out'.
Proof.
  destruct (is_declaration line) eqn:Hd.
  2:{ exists items, out. split; [by apply collect_line_other|].
      constructor; by left. }
  destruct (Str.startswith "_" (item_name line)) eqn:Hp.
  { exists items, out. split; [by apply collect_line_private|].
    constructor; by right. }
  destruct (items !! item_name line) as [[[pf pl] pt]|] eqn:Hl.
  - eexists _, _. split; [by eapply collect_line_duplicate|].
    by econstructor.
  - eexists _, _. split; [by apply collect_line_new|]. by constructor.
Qed.

(** An invariant of the collector's turns is an invariant of the scan of
    a file, and of the scan of a directory. *)
Section collect_invariant.
Context (inv : gmap string entry -> list string -> Prop).
Hypothesis inv_step : forall filename linenum line items out items' out',
  inv items out ->
  collect_step filename linenum line items out items' out' ->
  inv items' out'.

Lemma collect_lines_inv filename (lns : list (nat * string)) items out :
  inv items out ->
  exists items' out',
    for_each (collect_line filename) lns items out = (Ok items', out')
    /\ inv items' out'.
Proof.
  apply for_each_inv. intros [n line] s o _ Hs.
  destruct (collect_line_step filename n line s o) as (s' & o' & E & St).
  exists s', o'. eauto.
Qed.

Lemma collect_file_inv f items out :
  inv items out ->
  exists items' out',
    collect_file f items out = (Ok items', out') /\ inv items' out'.
Proof.
  intros H. destruct f as [filename lines]. unfold collect_file.
  destruct (Str.endswith SRC_EXT filename).
  - by apply collect_lines_inv.
  - by exists items, out.
Qed.

Lemma collect_files_inv (dir : list file) items out :
  inv items out ->
  exists items' out',
    for_each collect_file dir items out = (Ok items', out')
    /\ inv items' out'.
Proof.
  apply for_each_inv. intros f s o _ Hs. by apply collect_file_inv.
Qed.

Lemma collect_inv src_dir out :
  inv ∅ out ->
  exists items out',
    collect src_dir out = (Ok items, out') /\ inv items out'.
Proof. apply collect_files_inv. Qed.
End collect_invariant.

Lemma public_keys_step filename linenum line items out items' out' :
  public_keys items ->
  collect_step filename linenum line items out items' out' ->
  public_keys items'.
Proof.
  intros H St. destruct St as [?|????|Hp Hn]; try done.
  intros k [e He]. destruct (decide (item_name line = k)) as [<-|Hne]; [done|].
  rewrite lookup_insert_ne in He by done. apply H. by exists e.
Qed.

Lemma public_keys_empty : public_keys ∅.
Proof. intros k [e He]. by rewrite lookup_empty in He. Qed.

(** The collector never fails. *)
Lemma collect_total src_dir out :
  exists items out', collect src_dir out = (Ok items, out').
Proof.
  destruct (collect_inv (fun _ _ => True) (fun _ _ _ _ _ _ _ _ _ => I)
              src_dir out I) as (items & out' & H & _).
  by exists items, out'.
Qed.

(** ** The test correlator, one line at a time *)

Section correlate_line_cases.
Context (filename : string) (linenum : nat) (line : string).
Context (c : coverage) (out : list string).

Lemma correlate_line_other :
  Str.startswith "module " line = false ->
  correlate_line filename (linenum, line) c out = (Ok c, out).
Proof. intros H. unfold correlate_line. by rewrite H. Qed.

Lemma correlate_line_not_test :
  Str.startswith "test_" (extract 7 line) = false ->
  correlate_line filename (linenum, line) c out = (Ok c, out).
Proof.
  intros H. unfold correlate_line. cbv zeta. rewrite H.
  by destruct (Str.startswith "module " line).
Qed.

(** A test module [test_<itemname>]: the dictionary is looked up at
    [itemname]. *)
Lemma correlate_line_target itemname :
  Str.startswith "module " line = true ->
  extract 7 line = "test_" +:+ itemname ->
  correlate_line filename (linenum, line) c out
  = match uncovered c !! itemname with
    | Some e =>
        (Ok (cover itemname filename (linenum + 1) e.2 c),
         out ++ mismatch filename linenum itemname e)
    | None => (Ok c, out)
    end.
Proof.
  intros H1 H2. unfold correlate_line. cbv zeta.
  rewrite H1, H2, startswith_app.
  rewrite (bind_ok _ _ out (Str.slice_from 5 ("test_" +:+ itemname)) out).
  2:{ unfold getitem. by rewrite split_test_prefix by apply startswith_app. }
  change (Str.slice_from 5 ("test_" +:+ itemname)) with itemname.
  destruct (uncovered c !! itemname) as [[[sf sl] ty]|]; [|done].
  unfold mismatch. case_bool_decide.
  - unfold mbind, M_bind, print. simpl. by rewrite <- app_assoc.
  - simpl. by rewrite app_nil_r.
Qed.
End correlate_line_cases.

Lemma correlate_line_step filename linenum line c out :
  exists c' out',
    correlate_line filename (linenum, line) c out = (Ok c', out')
    /\ correlate_step filename linenum line c out c' out'.
Proof.
  destruct (Str.startswith "module " line) eqn:Hm.
  2:{ exists c, out. split; [by apply correlate_line_other|constructor]. }
  destruct (Str.startswith "test_" (extract 7 line)) eqn:Ht.
  2:{ exists c, out. split; [by apply correlate_line_not_test|constructor]. }
  apply startswith_split in Ht. simpl in Ht.
  rewrite (correlate_line_target _ _ _ _ _ _ Hm Ht).
  destruct (uncovered c !! _) as [e|] eqn:Hl.
  - eexists _, _. split; [done|]. by econstructor.
  - exists c, out. split; [done|constructor].
Qed.

Section correlate_invariant.
Context (inv : coverage -> list string -> Prop).
Hypothesis inv_step : forall filename linenum line c out c' out',
  inv c out ->
  correlate_step filename linenum line c out c' out' ->
  inv c' out'.

Lemma correlate_lines_inv filename (lns : list (nat * string)) c out :
  inv c out ->
  exists c' out',
    for_each (correlate_line filename) lns c out = (Ok c', out')
    /\ inv c' out'.
Proof.
  apply for_each_inv. intros [n line] s o _ Hs.
  destruct (correlate_line_step filename n line s o) as (s' & o' & E & St).
  exists s', o'. eauto.
Qed.

Lemma correlate_file_inv f c out :
  inv c out ->
  exists c' out',
    correlate_file f c out = (Ok c', out') /\ inv c' out'.
Proof.
  intros H. destruct f as [filename lines]. unfold correlate_file.
  destruct (_ && _).
  - by apply correlate_lines_inv.
  - by exists c, out.
Qed.

Lemma correlate_inv test_dir items out :
  inv (Coverage ∅ items) out ->
  exists c out',
    correlate test_dir items out = (Ok c, out') /\ inv c out'.
Proof.
  apply for_each_inv. intros f s o _ Hs. by apply correlate_file_inv.
Qed.
End correlate_invariant.

Lemma splits_step items filename linenum line c out c' out' :
  splits items c ->
  correlate_step filename linenum line c out c' out' ->
  splits items c'.
Proof.
  intros (Hd & Hu & Hs) St. destruct St as [|itemname e _ _ Hl]; [done|].
  assert (itemname ∈ dom (uncovered c)) by (apply elem_of_dom; eauto).
  unfold splits, cover. simpl. rewrite dom_insert_L, dom_delete_L.
  split_and!.
  - set_solver.
  - rewrite <- Hu. apply set_eq. intros k.
    destruct (decide (k = itemname)); set_solver.
  - etrans; [apply delete_subseteq|done].
Qed.

Lemma splits_init items : splits items (Coverage ∅ items).
Proof. unfold splits. simpl. rewrite dom_empty_L. set_solver. Qed.

Lemma splits_size items c :
  splits items c -> size (covered c) + size (uncovered c) = size items.
Proof.
  intros (Hd & Hu & _).
  rewrite <- !size_dom, <- Hu. symmetry. by apply size_union.
Qed.

(** ** [sorted] *)

Section sorted_facts.
Context {A K : Type} (leb : K -> K -> bool) (key : A -> K).

Lemma insert_sorted_perm x l : insert_sorted leb key x l ≡ₚ x :: l.
Proof.
  induction l as [|y l IH]; simpl; [done|].
  destruct (leb (key x) (key y)); [done|].
  rewrite IH. apply Permutation_swap.
Qed.

Lemma sorted_perm l : sorted leb key l ≡ₚ l.
Proof.
  induction l as [|x l IH]; simpl; [done|].
  unfold sorted in IH. by rewrite insert_sorted_perm, IH.
Qed.

Hypothesis leb_total : forall a b, leb a b = true \/ leb b a = true.
Hypothesis leb_trans :
  forall a b c, leb a b = true -> leb b c = true -> leb a c = true.

Lemma insert_sorted_sorted x l :
  StronglySorted (key_le leb key) l ->
  StronglySorted (key_le leb key) (insert_sorted leb key x l).
Proof.
  induction 1 as [|y l Hl IH Hy]; simpl.
  { repeat constructor. }
  destruct (leb (key x) (key y)) eqn:E.
  - constructor; [by constructor|].
    constructor; [done|].
    eapply Forall_impl; [exact Hy|]. intros z Hz. by eapply leb_trans.
  - constructor; [done|].
    rewrite insert_sorted_perm. constructor; [|done].
    destruct (leb_total (key x) (key y)); [congruence|done].
Qed.

Lemma sorted_sorted l : StronglySorted (key_le leb key) (sorted leb key l).
Proof.
  induction l as [|x l IH]; simpl; [constructor|].
  by apply insert_sorted_sorted.
Qed.

Lemma insert_sorted_filter (P : A -> Prop) `{!forall x, Decision (P x)} x l :
  (forall y, y ∈ l -> P x -> P y -> leb (key x) (key y) = true) ->
  filter P (insert_sorted leb key x l) = filter P (x :: l).
Proof.
  induction l as [|y l IH]; intros Hle; simpl; [done|].
  destruct (leb (key x) (key y)) eqn:E; [done|].
  rewrite !filter_cons in *. simpl in IH.
  rewrite IH by (intros z Hz; apply Hle; by right).
  destruct (decide (P x)) as [Hx|]; [|done].
  destruct (decide (P y)) as [Hy|]; [|done].
  rewrite Hle in E; [done|by left|done..].
Qed.

(** [sorted] is stable: the elements of one key stay in the order they
    had. *)
Lemma sorted_stable `{!EqDecision K} (k : K) l :
  (forall a, leb a a = true) ->
  filter (fun x => key x = k) (sorted leb key l)
  = filter (fun x => key x = k) l.
Proof.
  intros Hrefl. induction l as [|x l IH]; [done|].
  change (sorted leb key (x :: l))
    with (insert_sorted leb key x (sorted leb key l)).
  rewrite insert_sorted_filter.
  - by rewrite !filter_cons, IH.
  - intros y _ Hx Hy. rewrite Hx, Hy. apply Hrefl.
Qed.
End sorted_facts.

Lemma string_leb_total a b : String.leb a b = true \/ String.leb b a = true.
Proof. apply String.leb_total. Qed.

Lemma string_leb_trans a b c :
  String.leb a b = true -> String.leb b c = true -> String.leb a c = true.
Proof.
  intros H1 H2. apply Is_true_true. apply Is_true_true in H1, H2.
  exact (transitivity (R:=String.le) H1 H2).
Qed.

Lemma nat_leb_total a b : Nat.leb a b = true \/ Nat.leb b a = true.
Proof. rewrite !Nat.leb_le. lia. Qed.

Lemma nat_leb_trans a b c :
  Nat.leb a b = true -> Nat.leb b c = true -> Nat.leb a c = true.
Proof. rewrite !Nat.leb_le. lia. Qed.

(** ** Insertion-ordered dictionaries *)

Section dict_facts.
Context {V : Type}.
Implicit Types (d : list (string * V)) (k : string) (v : V).

Lemma find_set_eq k v d : Dict.find k (Dict.set k v d) = Some v.
Proof.
  induction d as [|[k' v'] d IH]; simpl.
  - by rewrite String.eqb_refl.
  - destruct (String.eqb k' k) eqn:E; simpl.
    + by rewrite String.eqb_refl.
    + by rewrite E.
Qed.

Lemma find_set_ne k k' v d :
  k ≠ k' -> Dict.find k' (Dict.set k v d) = Dict.find k' d.
Proof.
  intros Hne. induction d as [|[k0 v0] d IH]; simpl.
  - by apply String.eqb_neq in Hne as ->.
  - destruct (String.eqb k0 k) eqn:E; simpl; [|by rewrite IH].
    apply String.eqb_eq in E as ->.
    by apply String.eqb_neq in Hne as ->.
Qed.

Lemma find_None k d : Dict.find k d = None <-> k ∉ d.*1.
Proof.
  induction d as [|[k' v'] d IH]; simpl.
  - split; [intros _; apply not_elem_of_nil|done].
  - rewrite not_elem_of_cons. destruct (String.eqb k' k) eqn:E.
    + apply String.eqb_eq in E as ->. split; [done|]. by intros [? _].
    + apply String.eqb_neq in E. rewrite IH. naive_solver.
Qed.

Lemma find_Some k v d : NoDup d.*1 -> Dict.find k d = Some v <-> (k, v) ∈ d.
Proof.
  induction d as [|[k' v'] d IH]; simpl; intros Hnd.
  - split; [done|]. by intros ?%elem_of_nil.
  - apply NoDup_cons in Hnd as [Hk' Hnd]. rewrite elem_of_cons.
    destruct (String.eqb k' k) eqn:E.
    + apply String.eqb_eq in E as ->. split; [naive_solver|].
      intros [?|Hin]; [naive_solver|].
      destruct Hk'. apply list_elem_of_fmap. by exists (k, v).
    + apply String.eqb_neq in E. rewrite IH by done. naive_solver.
Qed.

Lemma keys_set_new k v d :
  Dict.find k d = None -> Dict.set k v d = d ++ [(k, v)].
Proof.
  induction d as [|[k' v'] d IH]; simpl; [done|].
  destruct (String.eqb k' k); [done|]. intros H. by rewrite IH.
Qed.

Lemma keys_set_old k v d :
  is_Some (Dict.find k d) -> (Dict.set k v d).*1 = d.*1.
Proof.
  induction d as [|[k' v'] d IH]; simpl; [by intros [? ?]|].
  destruct (String.eqb k' k) eqn:E; csimpl.
  - by apply String.eqb_eq in E as ->.
  - intros H. by rewrite IH.
Qed.
End dict_facts.

(** ** Grouping the uncovered items by file *)

Lemma group_item_ok unc itemname by_file out filename lineno item_type :
  unc !! itemname = Some (filename, lineno, item_type) ->
  group_item unc itemname by_file out
  = (Ok (add_item filename (itemname, item_type) by_file), out).
Proof.
  intros H. unfold group_item, add_item, Dict.contains, Dict.get. rewrite H.
  destruct (Dict.find filename by_file) as [its|] eqn:E.
  - unfold mbind, M_bind. by rewrite E.
  - unfold mbind, M_bind. by rewrite find_set_eq.
Qed.

Lemma group_items_ok unc ks by_file out :
  (forall k, k ∈ ks -> is_Some (unc !! k)) ->
  for_each (group_item unc) ks by_file out
  = (Ok (grouped (omap (tag unc) ks) by_file), out).
Proof.
  revert by_file. induction ks as [|k ks IH]; intros by_file Hks; [done|].
  destruct (Hks k) as [[[fn ln] ty] Hk]; [by left|].
  rewrite (for_each_cons_ok _ _ _ _ _ _ _ (group_item_ok _ _ _ _ _ _ _ Hk)).
  rewrite IH by (intros; apply Hks; by right).
  simpl. unfold tag at 2. by rewrite Hk.
Qed.

Lemma find_add_item filename it by_file fn :
  Dict.find fn (add_item filename it by_file)
  = if decide (filename = fn)
    then Some (default [] (Dict.find fn by_file) ++ [it])
    else Dict.find fn by_file.
Proof.
  unfold add_item. case_decide as Hfn.
  - subst fn. by destruct (Dict.find filename by_file); rewrite find_set_eq.
  - destruct (Dict.find filename by_file);
      by rewrite ?find_set_ne by done.
Qed.

Lemma keys_add_item filename it by_file :
  NoDup by_file.*1 -> NoDup (add_item filename it by_file).*1.
Proof.
  intros Hnd. unfold add_item.
  destruct (Dict.find filename by_file) as [its|] eqn:E.
  - by rewrite keys_set_old by (by rewrite E).
  - rewrite keys_set_old by (rewrite find_set_eq; eauto).
    rewrite keys_set_new, fmap_app by done. simpl.
    apply NoDup_app. split_and!; [done| |apply NoDup_singleton].
    intros k Hk ->%list_elem_of_singleton. by apply find_None in E.
Qed.

Lemma items_of_cons filename t tagged :
  items_of filename (t :: tagged)
  = if decide (t.1 = filename) then t.2 :: items_of filename tagged
    else items_of filename tagged.
Proof. unfold items_of. rewrite filter_cons. by case_decide. Qed.

Lemma find_grouped tagged by_file fn :
  Dict.find fn (grouped tagged by_file)
  = match Dict.find fn by_file with
    | Some its => Some (its ++ items_of fn tagged)
    | None => match items_of fn tagged with [] => None | its => Some its end
    end.
Proof.
  revert by_file. induction tagged as [|t tagged IH]; intros by_file.
  - simpl. destruct (Dict.find fn by_file); [|done]. by rewrite app_nil_r.
  - simpl. rewrite IH, find_add_item, items_of_cons.
    case_decide; [|done].
    destruct (Dict.find fn by_file); simpl; [|done].
    by rewrite <- app_assoc.
Qed.

Lemma keys_grouped tagged by_file :
  NoDup by_file.*1 -> NoDup (grouped tagged by_file).*1.
Proof.
  revert by_file. induction tagged as [|t tagged IH]; intros by_file H; [done|].
  simpl. by apply IH, keys_add_item.
Qed.

(** Every group of the dictionary built from nothing holds the items of
    its file, and at least one. *)
Lemma grouped_elem_of tagged fn its :
  (fn, its) ∈ grouped tagged [] <-> its = items_of fn tagged /\ its ≠ [].
Proof.
  rewrite <- find_Some by (apply keys_grouped; constructor).
  rewrite find_grouped. simpl.
  destruct (items_of fn tagged); naive_solver.
Qed.

Lemma elem_of_items_of fn it tagged :
  it ∈ items_of fn tagged <-> (fn, it) ∈ tagged.
Proof.
  unfold items_of. rewrite list_elem_of_fmap. split.
  - intros ([f i] & -> & [Hf ?]%list_elem_of_filter). simpl in *. by subst.
  - intros H. exists (fn, it). split; [done|].
    by apply list_elem_of_filter.
Qed.

Lemma StronglySorted_sublist {A} (R : relation A) l1 l2 :
  l1 `sublist_of` l2 -> StronglySorted R l2 -> StronglySorted R l1.
Proof.
  induction 1 as [|x l1 l2 Hsub IH|x l1 l2 Hsub IH]; intros Hs; [done|..].
  - apply StronglySorted_inv in Hs as [Hs Hx]. constructor; [by apply IH|].
    apply Forall_forall. intros y Hy.
    eapply Forall_forall in Hx; [done|]. by eapply elem_of_sublist.
  - apply StronglySorted_inv in Hs as [Hs _]. by apply IH.
Qed.

(** ** The sorted names of the uncovered items *)

Lemma elem_of_sorted_keys unc k : k ∈ sorted_keys unc <-> is_Some (unc !! k).
Proof.
  unfold sorted_keys. rewrite sorted_perm, list_elem_of_fmap. split.
  - intros ([k' v] & -> & H%elem_of_map_to_list). by exists v.
  - intros [v H]. exists (k, v). by rewrite elem_of_map_to_list.
Qed.

Lemma NoDup_sorted_keys unc : NoDup (sorted_keys unc).
Proof.
  unfold sorted_keys. rewrite sorted_perm. apply NoDup_fst_map_to_list.
Qed.

Lemma StronglySorted_weaken {A} (R1 R2 : relation A) l :
  (forall x y, R1 x y -> R2 x y) -> StronglySorted R1 l -> StronglySorted R2 l.
Proof.
  intros HR. induction 1 as [|x l Hl IH Hx]; constructor; [done|].
  eapply Forall_impl; [exact Hx|]. intros y. apply HR.
Qed.

Lemma sorted_keys_ascending unc : StronglySorted String.le (sorted_keys unc).
Proof.
  unfold sorted_keys.
  pose proof (sorted_sorted String.leb id string_leb_total string_leb_trans
                (map_to_list unc).*1) as H.
  eapply StronglySorted_weaken; [|exact H].
  intros x y Hxy. by apply Is_true_true.
Qed.

Lemma tagged_names unc (ks : list string) :
  (forall k, k ∈ ks -> is_Some (unc !! k)) -> (omap (tag unc) ks).*2.*1 = ks.
Proof.
  induction ks as [|k ks IH]; intros Hks; [done|].
  destruct (Hks k) as [e He]; [by left|].
  simpl. unfold tag at 1. rewrite He. csimpl.
  by rewrite IH by (intros; apply Hks; by right).
Qed.

Lemma elem_of_tagged unc (ks : list string) fn name ty :
  (fn, (name, ty)) ∈ omap (tag unc) ks
  <-> name ∈ ks /\ exists ln, unc !! name = Some (fn, ln, ty).
Proof.
  rewrite list_elem_of_omap. unfold tag. split.
  - intros (k & Hk & He). destruct (unc !! k) as [[[f l] t]|] eqn:E; [|done].
    simpl in He. injection He as <- <- <-. eauto.
  - intros (Hk & ln & He). exists name. by rewrite He.
Qed.

Lemma items_of_sublist unc (ks : list string) fn :
  (forall k, k ∈ ks -> is_Some (unc !! k)) ->
  (items_of fn (omap (tag unc) ks)).*1 `sublist_of` ks.
Proof.
  intros Hks. rewrite <- (tagged_names unc ks Hks) at 2.
  unfold items_of. apply fmap_sublist, fmap_sublist, sublist_filter.
Qed.

(** ** Printing the groups *)

Lemma group_by_file_ok unc out :
  group_by_file unc out = (Ok (by_file_of unc), out).
Proof.
  unfold group_by_file. apply group_items_ok.
  intros k. by rewrite elem_of_sorted_keys.
Qed.

Lemma count_files_ok (by_file : Dict.t (list listed)) out :
  NoDup by_file.*1 ->
  count_files by_file out = (Ok (map counted by_file), out).
Proof.
  intros Hnd. unfold count_files, Dict.keys.
  enough (forall l acc,
    (forall g, g ∈ l -> Dict.find g.1 by_file = Some g.2) ->
    for_each (fun filename mostest =>
                fileitems ← Dict.get filename by_file;
                mret (mostest ++ [(length fileitems, filename)]))
             l.*1 acc out = (Ok (acc ++ map counted l), out)) as H.
  { apply (H by_file []). intros [fn its] Hg. by apply find_Some. }
  induction l as [|g l IH]; intros acc Hl; simpl.
  - by rewrite app_nil_r.
  - unfold mbind at 1, M_bind at 1, mbind at 1, M_bind at 1, Dict.get at 1.
    rewrite (Hl g) by (by left). simpl.
    rewrite IH by (intros; apply Hl; by right).
    by rewrite <- app_assoc.
Qed.

Lemma print_items_ok (its : list listed) out :
  for_each (fun it _ => print (item_line it)) its tt out
  = (Ok tt, out ++ map item_line its).
Proof.
  revert out. induction its as [|it its IH]; intros out; simpl.
  - by rewrite app_nil_r.
  - rewrite bind_print, IH. by rewrite <- app_assoc.
Qed.

Lemma print_group_ok by_file cnt fn its out :
  Dict.find fn by_file = Some its ->
  print_group by_file (cnt, fn) tt out
  = (Ok tt, out ++ group_header fn cnt :: map item_line its).
Proof.
  intros H. unfold print_group, Dict.get. rewrite H.
  rewrite bind_ret, bind_print, print_items_ok. by rewrite <- app_assoc.
Qed.

Lemma print_groups_ok by_file (gs : list (nat * string)) out :
  (forall g, g ∈ gs ->
     exists its, Dict.find g.2 by_file = Some its /\ g.1 = length its) ->
  for_each (print_group by_file) gs tt out
  = (Ok tt,
     out ++ concat (map (fun g : nat * string =>
                           render (g.2, default [] (Dict.find g.2 by_file)))
                        gs)).
Proof.
  revert out. induction gs as [|[cnt fn] gs IH]; intros out Hgs.
  - simpl. by rewrite app_nil_r.
  - destruct (Hgs (cnt, fn)) as (its & Hf & Hc); [by left|]. simpl in Hf, Hc.
    rewrite (for_each_cons_ok _ _ _ _ _ _ _ (print_group_ok _ _ _ _ _ Hf)).
    rewrite IH by (intros; apply Hgs; by right).
    simpl. rewrite Hf. unfold render. simpl. rewrite <- Hc.
    by rewrite <- app_assoc.
Qed.

Lemma NoDup_by_file_of unc : NoDup (by_file_of unc).*1.
Proof. apply keys_grouped. constructor. Qed.

Lemma sorted_counted_elem_of unc g :
  g ∈ sorted Nat.leb fst (map counted (by_file_of unc)) ->
  exists its, (g.2, its) ∈ by_file_of unc /\ g.1 = length its.
Proof.
  rewrite sorted_perm, list_elem_of_fmap.
  intros ([fn its] & -> & Hin). by exists its.
Qed.

(** The report printer never fails; it prints the header and then the
    groups. *)
Lemma print_uncovered_ok unc out :
  print_uncovered unc out
  = (Ok tt, out ++ "NOT COVERED:" :: concat (map render (report_groups unc))).
Proof.
  unfold print_uncovered.
  rewrite (bind_ok _ _ _ _ _ (group_by_file_ok unc out)).
  rewrite (bind_ok _ _ _ _ _
             (count_files_ok _ out (NoDup_by_file_of unc))).
  rewrite bind_print, print_groups_ok.
  - unfold report_groups. rewrite map_map, <- app_assoc. done.
  - intros g (its & Hin & Hc)%sorted_counted_elem_of.
    exists its. split; [|done]. apply find_Some; [apply NoDup_by_file_of|done].
Qed.

(** ** Conversion of the counts to [float] *)

Local Open Scope Z_scope.

Lemma digits2_pos_size p : digits2_pos p = Pos.size p.
Proof. induction p; simpl; congruence. Qed.

Lemma Zdigits2_bounds p :
  2 ^ (Zdigits2 (Zpos p) - 1) <= Zpos p < 2 ^ Zdigits2 (Zpos p).
Proof.
  unfold Zdigits2. rewrite digits2_pos_size.
  pose proof (Pos.size_le p) as Hle. pose proof (Pos.size_gt p) as Hgt.
  apply Pos2Z.pos_le_pos in Hle. apply Pos2Z.pos_lt_pos in Hgt.
  rewrite Pos2Z.inj_pow in Hle, Hgt.
  change (Z.pos p~0) with (2 * Z.pos p) in Hle.
  split; [|exact Hgt].
  replace (2 ^ Zpos (Pos.size p)) with (2 * 2 ^ (Zpos (Pos.size p) - 1)) in Hle.
  - lia.
  - rewrite <- Z.pow_succ_r by lia. f_equal. lia.
Qed.

Lemma Zdigits2_le p n : Zpos p < 2 ^ n -> Zdigits2 (Zpos p) <= n.
Proof.
  intros H. pose proof (Zdigits2_bounds p) as [Hlo _].
  assert (0 < Zdigits2 (Zpos p)) by (unfold Zdigits2; lia).
  apply Z.lt_succ_r.
  assert (0 <= n).
  { destruct n; try lia. rewrite Z.pow_neg_r in H by lia. lia. }
  apply (Z.pow_lt_mono_r_iff 2); [lia|lia|].
  rewrite Z.pow_succ_r by lia.
  replace (2 ^ Zdigits2 (Zpos p)) with (2 * 2 ^ (Zdigits2 (Zpos p) - 1)).
  - lia.
  - rewrite <- Z.pow_succ_r by lia. f_equal. lia.
Qed.

Lemma shr_1_m mrs : 0 <= shr_m mrs -> shr_m (shr_1 mrs) = shr_m mrs / 2.
Proof.
  destruct mrs as [m r s]. simpl. intros Hm.
  destruct m as [|[p|p|]|p]; simpl; try done; try lia.
  - apply Z.div_unique with 1; lia.
  - apply Z.div_unique with 0; lia.
Qed.

Lemma pow2_xO n : 2 ^ Zpos n~0 = 2 ^ Zpos n * 2 ^ Zpos n.
Proof. rewrite <- Z.pow_add_r by lia. f_equal. lia. Qed.

Lemma pow2_xI n : 2 ^ Zpos n~1 = 2 * (2 ^ Zpos n * 2 ^ Zpos n).
Proof. rewrite <- Z.pow_add_r, <- Z.pow_succ_r by lia. f_equal. lia. Qed.

Lemma iter_shr_1_m n mrs :
  0 <= shr_m mrs ->
  shr_m (SpecFloat.iter_pos shr_1 n mrs) = shr_m mrs / 2 ^ Zpos n.
Proof.
  revert mrs. induction n as [n IH|n IH|]; intros mrs Hm;
    simpl SpecFloat.iter_pos.
  - pose proof (shr_1_m mrs Hm) as H1.
    assert (0 <= shr_m (shr_1 mrs)) as H1'
      by (rewrite H1; apply Z.div_pos; lia).
    pose proof (IH _ H1') as H2.
    assert (0 < 2 ^ Zpos n) as Hp by (apply Z.pow_pos_nonneg; lia).
    assert (0 <= shr_m (SpecFloat.iter_pos shr_1 n (shr_1 mrs))) as H2'
      by (rewrite H2; apply Z.div_pos; lia).
    rewrite (IH _ H2'), H2, H1.
    rewrite !Z.div_div by lia. f_equal.
    rewrite pow2_xI. ring.
  - assert (0 < 2 ^ Zpos n) as Hp by (apply Z.pow_pos_nonneg; lia).
    pose proof (IH _ Hm) as H1.
    assert (0 <= shr_m (SpecFloat.iter_pos shr_1 n mrs)) as H1'
      by (rewrite H1; apply Z.div_pos; lia).
    rewrite (IH _ H1'), H1.
    rewrite !Z.div_div by lia. f_equal.
    by rewrite pow2_xO.
  - by rewrite shr_1_m.
Qed.

Section binary64.
Import Float.

Lemma shr_record_of_loc_m m l : shr_m (shr_record_of_loc m l) = m.
Proof. by destruct l as [|[]]. Qed.

(** Dropping the bits beyond the precision leaves a positive significand,
    as long as the exponent is in the normal range. *)
Lemma shr_fexp_pos mx ex lx :
  0 < mx -> -1074 <= ex ->
  0 < shr_m (shr_fexp prec emax mx ex lx).1 <= mx
  /\ ex <= (shr_fexp prec emax mx ex lx).2
        <= ex + Z.max 0 (Zdigits2 mx - 53).
Proof.
  intros Hm He. destruct mx as [|p|p]; try lia.
  pose proof (Zdigits2_bounds p) as [Hlo Hhi].
  assert (0 < Zdigits2 (Zpos p)) as Hd by (unfold Zdigits2; lia).
  unfold shr_fexp, shr, fexp, SpecFloat.emin, prec, emax.
  destruct (_ - ex) as [|k|k] eqn:Hk; simpl fst; simpl snd;
    rewrite ?shr_record_of_loc_m; try lia.
  assert (Zpos k = Zdigits2 (Zpos p) - 53) as Hk' by lia.
  rewrite iter_shr_1_m, shr_record_of_loc_m
    by (rewrite shr_record_of_loc_m; lia).
  assert (0 < 2 ^ Zpos k) as Hp by (apply Z.pow_pos_nonneg; lia).
  assert (2 ^ Zpos k <= 2 ^ (Zdigits2 (Zpos p) - 1))
    by (apply Z.pow_le_mono_r; lia).
  split; [split|lia].
  - apply Z.div_str_pos. lia.
  - apply Z.div_le_upper_bound; [lia|]. nia.
Qed.

Lemma round_nearest_even_bounds m l :
  m <= round_nearest_even m l <= m + 1.
Proof.
  destruct l as [|[]]; simpl; try lia. destruct (Z.even m); lia.
Qed.

(** Rounding a positive significand below [2^64], at an exponent in the
    normal range, gives a finite non-zero double. *)
Lemma binary_round_aux_finite sx mx ex lx :
  0 < mx < 2 ^ 64 -> -1074 <= ex <= 900 ->
  exists m e, binary_round_aux prec emax sx mx ex lx = S754_finite sx m e.
Proof.
  intros Hm He. unfold binary_round_aux.
  pose proof (shr_fexp_pos mx ex lx) as H1.
  destruct (shr_fexp prec emax mx ex lx) as [mrs1 e1].
  destruct H1 as [Hm1 He1]; [lia..|]. simpl in Hm1, He1.
  pose proof (round_nearest_even_bounds (shr_m mrs1)
                (loc_of_shr_record mrs1)) as Hr.
  set (m2 := round_nearest_even _ _) in *.
  pose proof (shr_fexp_pos m2 e1 loc_Exact) as H2.
  destruct (shr_fexp prec emax m2 e1 loc_Exact) as [mrs2 e2].
  destruct H2 as [Hm2 He2]; [lia..|]. simpl in Hm2, He2.
  assert (Zdigits2 mx <= 64) as Hd1.
  { destruct mx as [|p|p]; try lia. apply Zdigits2_le. lia. }
  assert (Zdigits2 m2 <= 65) as Hd2.
  { destruct m2 as [|p|p]; try lia. apply Zdigits2_le.
    change (2 ^ 65) with (2 * 2 ^ 64). lia. }
  destruct (shr_m mrs2) as [|m|m]; try lia.
  exists m, e2. unfold prec, emax.
  destruct (Z.leb_spec e2 (1024 - 53)); [done|lia].
Qed.

Lemma iter_xO_pos p k : Zpos (Pos.iter xO p k) = Zpos p * 2 ^ Zpos k.
Proof.
  rewrite (Pos.iter_swap_gen _ _ Zpos xO (Z.mul 2)) by done.
  change (Pos.iter (Z.mul 2) (Zpos p) k) with (Z.shiftl (Zpos p) (Zpos k)).
  by rewrite Z.shiftl_mul_pow2.
Qed.

(** The double nearest to an integer in [1, 2^63) is finite and not
    zero. *)
Lemma binary_normalize_finite (n : Z) :
  0 < n < 2 ^ 63 ->
  exists m e, binary_normalize prec emax n 0 false = S754_finite false m e.
Proof.
  intros Hn. destruct n as [|p|p]; try lia.
  unfold binary_normalize, binary_round.
  pose proof (Zdigits2_bounds p) as [Hlo Hhi].
  assert (Zdigits2 (Zpos p) <= 63) as Hd by (apply Zdigits2_le; lia).
  assert (0 < Zdigits2 (Zpos p)) as Hd' by (unfold Zdigits2; lia).
  change (Zpos (digits2_pos p)) with (Zdigits2 (Zpos p)).
  unfold shl_align, fexp, SpecFloat.emin, prec, emax.
  destruct (_ - 0) as [|k|k] eqn:Hk.
  - apply binary_round_aux_finite; lia.
  - apply binary_round_aux_finite; lia.
  - apply binary_round_aux_finite; [|lia].
    rewrite iter_xO_pos. split; [lia|].
    assert (Zpos k = 53 - Zdigits2 (Zpos p)) as Hk' by lia.
    apply Z.lt_trans with (2 ^ Zdigits2 (Zpos p) * 2 ^ Zpos k).
    + apply Z.mul_lt_mono_pos_r; [apply Z.pow_pos_nonneg|]; lia.
    + rewrite <- Z.pow_add_r by lia.
      apply Z.pow_lt_mono_r; lia.
Qed.
End binary64.

Local Close Scope Z_scope.

Lemma of_int_zero out : Float.of_int 0 out = (Ok (S754_zero false), out).
Proof. reflexivity. Qed.

Lemma of_int_positive (n : Z) out :
  (0 < n <= PY_SSIZE_T_MAX)%Z ->
  exists m e, Float.of_int n out = (Ok (S754_finite false m e), out).
Proof.
  intros Hn. destruct (binary_normalize_finite n) as (m & e & H).
  { unfold PY_SSIZE_T_MAX in Hn. lia. }
  exists m, e. unfold Float.of_int. by rewrite H.
Qed.

(** ** The aggregate line *)

Lemma print_total_empty (cov : gmap string entry) out :
  size cov = 0 ->
  print_total ∅ cov out = (Raise ZeroDivisionError, out).
Proof. intros H. unfold print_total. by rewrite H. Qed.

Lemma print_total_ok (items cov : gmap string entry) out :
  0 < size items -> (Z.of_nat (size items) <= PY_SSIZE_T_MAX)%Z ->
  size cov <= size items ->
  exists pct,
    print_total items cov out
    = (Ok tt, out ++ [total_line (size cov) (size items) pct]).
Proof.
  intros Hpos Hmax Hcov. unfold print_total.
  destruct (of_int_positive (Z.of_nat (size items)) out) as (mt & et & Ht);
    [lia|].
  assert (exists c, Float.of_int (Z.of_nat (size cov)) out = (Ok c, out))
    as [c Hc].
  { destruct (size cov) as [|k] eqn:E; [by exists (S754_zero false)|].
    rewrite <- E.
    destruct (of_int_positive (Z.of_nat (size cov)) out) as (m & e & H);
      [lia|eauto]. }
  rewrite (bind_ok _ _ _ _ _ Hc), (bind_ok _ _ _ _ _ Ht).
  by eexists.
Qed.

(** ** The phases of a run *)

Lemma scanned_step filename linenum line items out items' out' :
  scanned items out ->
  collect_step filename linenum line items out items' out' ->
  scanned items' out'.
Proof.
  intros (Hk & Hw & He) St.
  split; [by eapply public_keys_step|].
  destruct St as [?|pf pl pt Hp Hl|Hp Hn]; [done|..].
  - split.
    + apply Forall_app. split; [done|].
      apply Forall_cons. split; [left; eauto 10|].
      apply Forall_cons. split; [right; eauto|constructor].
    + intros ->. by rewrite lookup_empty in Hl.
  - split; [done|]. intros H. by apply insert_non_empty in H.
Qed.

Lemma scanned_init : scanned ∅ [].
Proof. split; [apply public_keys_empty|]. by split. Qed.

Lemma collect_scanned src_dir :
  exists items out,
    collect src_dir [] = (Ok items, out) /\ scanned items out.
Proof. apply collect_inv; [apply scanned_step|apply scanned_init]. Qed.

Lemma correlated_step items out0 filename linenum line c out c' out' :
  correlated items out0 c out ->
  correlate_step filename linenum line c out c' out' ->
  correlated items out0 c' out'.
Proof.
  intros (Hs & He) St. split; [by eapply splits_step|].
  destruct St as [|itemname e _ _ Hl]; [done|].
  intros ->. destruct Hs as (_ & _ & Hsub).
  eapply lookup_weaken in Hl; [|done]. by rewrite lookup_empty in Hl.
Qed.

Lemma correlate_correlated test_dir items out0 :
  exists c out,
    correlate test_dir items out0 = (Ok c, out)
    /\ correlated items out0 c out.
Proof.
  apply correlate_inv; [apply correlated_step|].
  split; [apply splits_init|done].
Qed.

Lemma splits_empty c : splits ∅ c -> covered c = ∅ /\ uncovered c = ∅.
Proof.
  intros (_ & Hu & _). rewrite dom_empty_L in Hu.
  apply empty_union_L in Hu as [H1 H2].
  by apply dom_empty_inv_L in H1, H2.
Qed.

Lemma splits_covered_size items c :
  splits items c -> size (covered c) <= size items.
Proof. intros H. apply splits_size in H. lia. Qed.

Lemma splits_public items c :
  splits items c -> public_keys items ->
  public_keys (covered c) /\ public_keys (uncovered c).
Proof.
  intros (_ & Hu & _) Hk.
  split; intros k Hin%elem_of_dom; apply Hk, elem_of_dom; set_solver.
Qed.

(** A run is the three phases one after the other. *)
Lemma run_phases src_dir test_dir :
  exists items out1 c out2,
    collect src_dir [] = (Ok items, out1)
    /\ scanned items out1
    /\ correlate test_dir items out1 = (Ok c, out2)
    /\ correlated items out1 c out2
    /\ run src_dir test_dir
       = print_total items (covered c)
           (out2 ++ "NOT COVERED:"
                 :: concat (map render (report_groups (uncovered c)))).
Proof.
  destruct (collect_scanned src_dir) as (items & out1 & Hc & Hs).
  destruct (correlate_correlated test_dir items out1) as (c & out2 & Hr & Hi).
  exists items, out1, c, out2. split_and!; try done.
  unfold run, main.
  rewrite (bind_ok _ _ _ _ _ Hc), (bind_ok _ _ _ _ _ Hr).
  by rewrite (bind_ok _ _ _ _ _ (print_uncovered_ok _ _)).
Qed.

Lemma of_int_out n out : exists r, Float.of_int n out = (r, out).
Proof.
  unfold Float.of_int.
  destruct (binary_normalize _ _ _ _ _); by eexists.
Qed.

(** The aggregate line is the only thing [print_total] may print. *)
Lemma print_total_out items cov out :
  exists r tail,
    print_total items cov out = (r, out ++ tail) /\ length tail <= 1.
Proof.
  unfold print_total, mbind, M_bind.
  destruct (of_int_out (Z.of_nat (size cov)) out) as [[c|e] ->];
    [|exists (Raise e), []; rewrite app_nil_r; simpl; split; [done|lia]].
  destruct (of_int_out (Z.of_nat (size items)) out) as [[t|e] ->];
    [|exists (Raise e), []; rewrite app_nil_r; simpl; split; [done|lia]].
  unfold Float.truediv.
  destruct t; try (eexists (Ok tt), [_]; simpl; split; [done|lia]).
  exists (Raise ZeroDivisionError), []. rewrite app_nil_r.
  simpl; split; [done|lia].
Qed.

(** ** Stripping and cutting *)

Lemma rstrip_cons c r :
  Str.isspace c = false -> Str.rstrip (String c r) = String c (Str.rstrip r).
Proof. intros H. simpl. rewrite H. by destruct (Str.rstrip r). Qed.

Lemma strip_cons c r :
  Str.isspace c = false -> Str.strip (String c r) = String c (Str.rstrip r).
Proof. intros H. unfold Str.strip. simpl. rewrite H. by apply rstrip_cons. Qed.

(** The first field of a split is the text before the first separator. *)
Lemma hd_splitn_app sep p r n :
  free_of sep p = true ->
  hd "" (Str.splitn sep (S n) (p +:+ String sep r)) = p.
Proof.
  unfold String.app. induction p as [|c p IH]; simpl.
  - by rewrite Ascii.eqb_refl.
  - intros [Hc Hp]%andb_true_iff. apply negb_true_iff in Hc. rewrite Hc.
    specialize (IH Hp).
    destruct (Str.splitn sep (S n) _) as [|h t] eqn:E;
      [by apply splitn_nonempty in E|].
    simpl in *. by rewrite IH.
Qed.

Lemma hd_split_app sep p r :
  free_of sep p = true -> hd "" (Str.split sep (p +:+ String sep r)) = p.
Proof.
  intros H. unfold Str.split.
  destruct (String.length (p +:+ String sep r)) as [|n] eqn:E.
  - by destruct p.
  - by apply hd_splitn_app.
Qed.

(** The identifier of a line without one. *)
Lemma extract_nothing skip line :
  Str.strip (Str.slice_from skip line) = ""
  \/ Str.startswith "(" (Str.slice_from skip line) = true ->
  extract skip line = "".
Proof.
  unfold extract. intros [->|H]; [done|].
  apply startswith_split in H. rewrite H.
  set (r := Str.slice_from (String.length "(") _).
  change ("(" +:+ r) with (String "(" r).
  rewrite strip_cons by done.
  change (String "(" (Str.rstrip r)) with ("" +:+ String "(" (Str.rstrip r)).
  by rewrite hd_split_app.
Qed.

Lemma extract_test_nothing args : extract 7 ("module test_(" +:+ args) = "test_".
Proof.
  unfold extract.
  change (Str.slice_from 7 ("module test_(" +:+ args))
    with (String "t" (String "e" (String "s" (String "t" (String "_"
            (String "(" args)))))).
  rewrite strip_cons, !rstrip_cons by done.
  change (hd "" (Str.split "(" ?s))
    with (hd "" (Str.split "(" ("test_" +:+ String "(" (Str.rstrip args)))).
  by rewrite hd_split_app.
Qed.

(** ** The printed groups *)

Lemma find_by_file_of unc g :
  g ∈ by_file_of unc -> Dict.find g.1 (by_file_of unc) = Some g.2.
Proof.
  destruct g as [fn its]. intros H.
  by apply find_Some; [apply NoDup_by_file_of|].
Qed.

(** The printed groups are the groups of the dictionary, reordered. *)
Lemma report_groups_perm unc : report_groups unc ≡ₚ by_file_of unc.
Proof.
  unfold report_groups.
  etrans; [apply Permutation_map, sorted_perm|].
  rewrite map_map.
  rewrite (map_ext_in _ id); [by rewrite map_id|].
  intros g Hg%list_elem_of_In. simpl.
  rewrite (find_by_file_of _ _ Hg). by destruct g.
Qed.

Lemma report_groups_counts unc :
  map (fun g : string * list listed => length g.2) (report_groups unc)
  = (sorted Nat.leb fst (map counted (by_file_of unc))).*1.
Proof.
  unfold report_groups. rewrite map_map.
  apply map_ext_in. intros [cnt fn] Hg%list_elem_of_In.
  apply sorted_counted_elem_of in Hg as (its & Hin & Hcnt).
  pose proof (find_by_file_of _ _ Hin) as Hf.
  simpl in *. by rewrite Hf.
Qed.

Lemma report_groups_ascending unc :
  StronglySorted le
    (map (fun g : string * list listed => length g.2) (report_groups unc)).
Proof.
  rewrite report_groups_counts.
  eapply (StronglySorted_fmap fst); [|apply sorted_sorted].
  - intros x y H. by apply Nat.leb_le.
  - apply nat_leb_total.
  - apply nat_leb_trans.
Qed.

Lemma report_groups_items unc g :
  g ∈ report_groups unc ->
  g.2 = items_of g.1 (omap (tag unc) (sorted_keys unc)) /\ g.2 ≠ [].
Proof.
  rewrite report_groups_perm. destruct g as [fn its].
  unfold by_file_of. by rewrite grouped_elem_of.
Qed.

Lemma report_groups_names unc g :
  g ∈ report_groups unc ->
  StronglySorted String.le g.2.*1 /\ NoDup g.2.*1.
Proof.
  intros [-> _]%report_groups_items.
  assert ((items_of g.1 (omap (tag unc) (sorted_keys unc))).*1
          `sublist_of` sorted_keys unc) as Hsub.
  { apply items_of_sublist. intros k. by rewrite elem_of_sorted_keys. }
  split.
  - eapply StronglySorted_sublist; [apply Hsub|apply sorted_keys_ascending].
  - exact (sublist_NoDup _ _ (NoDup_sorted_keys unc) Hsub).
Qed.

Lemma report_groups_complete unc fn name ty :
  (exists its, (fn, its) ∈ report_groups unc /\ (name, ty) ∈ its)
  <-> exists ln, unc !! name = Some (fn, ln, ty).
Proof.
  split.
  - intros (its & [Hits _]%report_groups_items & Hin). simpl in Hits.
    rewrite Hits, elem_of_items_of, elem_of_tagged in Hin. apply Hin.
  - intros [ln Hl].
    assert ((name, ty) ∈ items_of fn (omap (tag unc) (sorted_keys unc)))
      as Hin.
    { rewrite elem_of_items_of, elem_of_tagged, elem_of_sorted_keys. eauto. }
    exists (items_of fn (omap (tag unc) (sorted_keys unc))).
    split; [|done].
    rewrite report_groups_perm. unfold by_file_of.
    rewrite grouped_elem_of. split; [done|].
    intros E. rewrite E in Hin. by apply elem_of_nil in Hin.
Qed.

Lemma report_groups_files unc : NoDup (report_groups unc).*1.
Proof. rewrite report_groups_perm. apply NoDup_by_file_of. Qed.

(** ** Lines that are not declarations *)

Lemma enumerate_app {A} (l1 l2 : list A) k :
  zip (seq k (length (l1 ++ l2))) (l1 ++ l2)
  = zip (seq k (length l1)) l1 ++ zip (seq (k + length l1) (length l2)) l2.
Proof.
  rewrite length_app, seq_app. apply zip_with_app. by rewrite length_seq.
Qed.

Lemma collect_lines_other filename (ns : list nat) (ls : list string)
    items out :
  Forall (fun l => is_declaration l = false) ls ->
  for_each (collect_line filename) (zip ns ls) items out = (Ok items, out).
Proof.
  intros H. apply for_each_skip. intros [n l] Hin%elem_of_zip_r.
  apply collect_line_other. by eapply Forall_forall in H.
Qed.

Lemma correlate_lines_other filename (ns : list nat) (ls : list string)
    c out :
  Forall (fun l => Str.startswith "module " l = false) ls ->
  for_each (correlate_line filename) (zip ns ls) c out = (Ok c, out).
Proof.
  intros H. apply for_each_skip. intros [n l] Hin%elem_of_zip_r.
  apply correlate_line_other. by eapply Forall_forall in H.
Qed.

(** * The claims *)

(** C1. When the registry is empty after the scan of the source directory,
    the run ends with an uncaught [ZeroDivisionError]; when it holds at
    least one declaration (and no more than a container can hold), the run
    ends normally, its output being the warnings, the report of the
    uncovered items and last the aggregate line. *)
Theorem exit_behaviour (src_dir test_dir : list file) :
  exists items out1,
    collect src_dir [] = (Ok items, out1)
    /\ (size items = 0 ->
        (run src_dir test_dir).1 = Raise ZeroDivisionError)
    /\ (0 < size items -> (Z.of_nat (size items) <= PY_SSIZE_T_MAX)%Z ->
        exists c warnings groups pct,
          correlate test_dir items out1 = (Ok c, warnings)
          /\ run src_dir test_dir
             = (Ok tt,
                warnings ++ "NOT COVERED:" :: concat (map render groups)
                ++ [total_line (size (covered c)) (size items) pct])).
Proof.
  destruct (run_phases src_dir test_dir)
    as (items & out1 & c & out2 & Hc & _ & Hr & [Hs _] & Hrun).
  exists items, out1. split; [done|]. rewrite Hrun. split.
  - intros ->%map_size_empty_iff.
    apply splits_empty in Hs as [-> _]. by rewrite print_total_empty.
  - intros Hpos Hmax.
    destruct (print_total_ok items (covered c)
                (out2 ++ "NOT COVERED:"
                   :: concat (map render (report_groups (uncovered c))))
                Hpos Hmax (splits_covered_size _ _ Hs)) as [pct ->].
    exists c, out2, (report_groups (uncovered c)), pct.
    split; [done|]. by rewrite <- app_assoc.
Qed.

Lemma exit_behaviour_witness :
  (run [] []).1 = Raise ZeroDivisionError
  /\ exists c warnings groups pct,
       correlate [] {["a" := ("a.scad", 1, "module")]} [] = (Ok c, warnings)
       /\ run [("a.scad", ["module a()"])] []
          = (Ok tt,
             warnings ++ "NOT COVERED:" :: concat (map render groups)
             ++ [total_line (size (covered c)) 1 pct]).
Proof.
  split.
  - destruct (exit_behaviour [] []) as (items & out1 & Hc & Hzero & _).
    apply Hzero. injection Hc as <- _. reflexivity.
  - destruct (exit_behaviour [("a.scad", ["module a()"])] [])
      as (items & out1 & Hc & _ & Hok).
    vm_compute in Hc. injection Hc as <- <-.
    apply Hok; vm_compute; [lia|discriminate].
Defined.

(** C2. After the correlation, covered and uncovered names partition the
    names of the registry, so their numbers add up to the total. *)
Theorem covered_uncovered_partition (src_dir test_dir : list file) :
  exists items out1 c out2,
    collect src_dir [] = (Ok items, out1)
    /\ correlate test_dir items out1 = (Ok c, out2)
    /\ size (covered c) + size (uncovered c) = size items
    /\ dom (covered c) ## dom (uncovered c)
    /\ dom (covered c) ∪ dom (uncovered c) = dom items.
Proof.
  destruct (run_phases src_dir test_dir)
    as (items & out1 & c & out2 & Hc & _ & Hr & [Hs _] & _).
  exists items, out1, c, out2. split_and!; try done.
  - by apply splits_size.
  - apply Hs.
  - apply Hs.
Qed.

(** C3. The source directory holds [shapes.scad], with [module box(...)]
    on line 3 and [function area(...)] on line 10 and no other declaration
    line; the test directory holds [test_shapes.scad], with
    [module test_box(...)] on line 2 and no other module line.  The run
    covers [box] without a warning, leaves [area] uncovered and prints
    [Total coverage: 1 of 2 items (50.00%)]. *)
Theorem shapes_example
    (before between after tests_before tests_after : list string) :
  length before = 2 -> length between = 6 ->
  Forall (fun l => is_declaration l = false) (before ++ between ++ after) ->
  length tests_before = 1 ->
  Forall (fun l => Str.startswith "module " l = false)
         (tests_before ++ tests_after) ->
  let src_dir :=
    [("shapes.scad",
      before ++ ["module box(...)" +:+ LF] ++ between
      ++ ["function area(...)" +:+ LF] ++ after)] in
  let test_dir :=
    [("test_shapes.scad",
      tests_before ++ ["module test_box(...)" +:+ LF] ++ tests_after)] in
  exists items c,
    collect src_dir [] = (Ok items, [])
    /\ correlate test_dir items [] = (Ok c, [])
    /\ items = {[ "box" := ("shapes.scad", 3, "module");
                  "area" := ("shapes.scad", 10, "function") ]}
    /\ covered c = {[ "box" := ("test_shapes.scad", 2, "module") ]}
    /\ uncovered c = {[ "area" := ("shapes.scad", 10, "function") ]}
    /\ run src_dir test_dir
       = (Ok tt,
          ["NOT COVERED:";
           "  shapes.scad: 1 uncovered items";
           "    function area";
           "Total coverage: 1 of 2 items (50.00%)"]).
Proof.
  intros Hb Hm Hsrc Ht Htests src_dir test_dir.
  apply Forall_app in Hsrc as [Hbefore Hsrc].
  apply Forall_app in Hsrc as [Hbetween Hafter].
  apply Forall_app in Htests as [Htb Hta].
  set (items :=
         ({[ "box" := ("shapes.scad", 3, "module");
             "area" := ("shapes.scad", 10, "function") ]}
            : gmap string entry)).
  set (c := Coverage {[ "box" := ("test_shapes.scad", 2, "module") ]}
                     {[ "area" := ("shapes.scad", 10, "function") ]}).
  assert (collect src_dir [] = (Ok items, [])) as Hcollect.
  { unfold collect, src_dir.
    apply (for_each_cons_ok collect_file _ [] ∅ [] items []).
    unfold collect_file.
    change (Str.endswith SRC_EXT "shapes.scad") with true. cbv iota.
    unfold enumerate. rewrite !enumerate_app.
    rewrite Hb, Hm. simpl length. simpl seq.
    rewrite for_each_app,
      (bind_ok _ _ _ _ _ (collect_lines_other _ _ _ _ _ Hbefore)).
    rewrite for_each_app,
      (bind_ok _ _ _ (<["box" := ("shapes.scad", 3, "module")]> ∅) [])
      by reflexivity.
    rewrite for_each_app,
      (bind_ok _ _ _ _ _ (collect_lines_other _ _ _ _ _ Hbetween)).
    rewrite for_each_app, (bind_ok _ _ _ items []) by reflexivity.
    apply collect_lines_other, Hafter. }
  assert (correlate test_dir items [] = (Ok c, [])) as Hcorrelate.
  { unfold correlate, test_dir.
    apply (for_each_cons_ok correlate_file _ [] _ [] c []).
    unfold correlate_file.
    change (Str.startswith "test_" "test_shapes.scad"
            && Str.endswith SRC_EXT "test_shapes.scad") with true.
    cbv iota.
    unfold enumerate. rewrite !enumerate_app.
    rewrite Ht. simpl length. simpl seq.
    rewrite for_each_app,
      (bind_ok _ _ _ _ _ (correlate_lines_other _ _ _ _ _ Htb)).
    rewrite for_each_app, (bind_ok _ _ _ c []) by reflexivity.
    apply correlate_lines_other, Hta. }
  exists items, c. split_and!; try done.
  unfold run, main.
  by rewrite (bind_ok _ _ _ _ _ Hcollect), (bind_ok _ _ _ _ _ Hcorrelate).
Qed.

Lemma shapes_example_witness :
  let src_dir :=
    [("shapes.scad",
      ["// shapes" +:+ LF; LF; "module box(...)" +:+ LF;
       "  cube(1);" +:+ LF; LF; LF; "// the area" +:+ LF; LF; LF;
       "function area(...)" +:+ LF; "  = 1;" +:+ LF])] in
  let test_dir :=
    [("test_shapes.scad",
      ["include <../src/shapes.scad>" +:+ LF; "module test_box(...)" +:+ LF;
       "  box();" +:+ LF])] in
  exists items c,
    collect src_dir [] = (Ok items, [])
    /\ correlate test_dir items [] = (Ok c, [])
    /\ items = {[ "box" := ("shapes.scad", 3, "module");
                  "area" := ("shapes.scad", 10, "function") ]}
    /\ covered c = {[ "box" := ("test_shapes.scad", 2, "module") ]}
    /\ uncovered c = {[ "area" := ("shapes.scad", 10, "function") ]}
    /\ run src_dir test_dir
       = (Ok tt,
          ["NOT COVERED:";
           "  shapes.scad: 1 uncovered items";
           "    function area";
           "Total coverage: 1 of 2 items (50.00%)"]).
Proof.
  apply (shapes_example
           ["// shapes" +:+ LF; LF]
           ["  cube(1);" +:+ LF; LF; LF; "// the area" +:+ LF; LF; LF]
           ["  = 1;" +:+ LF]
           ["include <../src/shapes.scad>" +:+ LF]
           ["  box();" +:+ LF]);
    [reflexivity|reflexivity|repeat constructor|reflexivity
    |repeat constructor].
Defined.

(** C4. At any point of the scan (after any files, and any lines of the
    current file), a declaration line whose name is already in the registry,
    whatever the kinds, prints the two lines of the duplicate warning, the
    first with the file and line of the redefinition, the second with those
    of the first definition, and leaves the registry as it was. *)
Theorem duplicate_warning (scanned_files : list file) (filename : string)
    (lines_before : list string) (line : string)
    (items0 items : gmap string entry) (out0 out : list string)
    (prev_file : string) (prev_line : nat) (prev_type : string) :
  collect scanned_files [] = (Ok items0, out0) ->
  for_each (collect_line filename) (enumerate lines_before) items0 out0
  = (Ok items, out) ->
  is_declaration line = true ->
  items !! item_name line = Some (prev_file, prev_line, prev_type) ->
  collect_line filename (length lines_before, line) items out
  = (Ok items,
     out ++ [redefined_at (item_type_of line) (item_name line) filename
               (length lines_before + 1);
             previously_at prev_file prev_line]).
Proof.
  intros Hfiles Hlines Hd Hl.
  apply collect_line_duplicate with prev_type; [done| |done].
  destruct (collect_scanned scanned_files) as (i0 & o0 & Hc & Hs).
  rewrite Hfiles in Hc. injection Hc as <- <-.
  destruct (collect_lines_inv scanned scanned_step filename
              (enumerate lines_before) items0 out0 Hs)
    as (i1 & o1 & Hc & (Hk & _)).
  rewrite Hlines in Hc. injection Hc as <- <-.
  apply Hk. eauto.
Qed.

Lemma duplicate_warning_witness :
  collect_line "extra.scad" (0, "function box(...) = 1;")
    {["box" := ("shapes.scad", 3, "module")]} []
  = (Ok {["box" := ("shapes.scad", 3, "module")]},
     ["WARNING!!! Function box re-defined at extra.scad:1";
      "           Previously defined at shapes.scad:3"]).
Proof.
  apply (duplicate_warning
           [("shapes.scad", ["// shapes"; ""; "module box(...)"])]
           "extra.scad" [] "function box(...) = 1;"
           {["box" := ("shapes.scad", 3, "module")]}
           {["box" := ("shapes.scad", 3, "module")]} [] []
           "shapes.scad" 3 "module");
    reflexivity.
Defined.

(** A second file defining [box] again: the warning names [extra.scad:1]
    and the first definition [shapes.scad:3], which the report still
    attributes [box] to. *)
Example duplicate_run :
  run [("shapes.scad", ["// shapes"; ""; "module box(...)"]);
       ("extra.scad", ["module box(...)"])] []
  = (Ok tt,
     ["WARNING!!! Module box re-defined at extra.scad:1";
      "           Previously defined at shapes.scad:3";
      "NOT COVERED:";
      "  shapes.scad: 1 uncovered items";
      "    module box";
      "Total coverage: 0 of 1 items (0.00%)"]).
Proof. reflexivity. Qed.

(** C5. A declaration line whose identifier begins with an underscore
    changes nothing and prints nothing; whatever the directories, that
    identifier is a key of none of the three dictionaries the counts are
    taken from, and every line the collector prints belongs to a warning
    about a name that does not begin with an underscore. *)
Theorem private_names_ignored (src_dir test_dir : list file)
    (filename : string) (linenum : nat) (line : string) :
  is_declaration line = true ->
  Str.startswith "_" (item_name line) = true ->
  (forall items out,
     collect_line filename (linenum, line) items out = (Ok items, out))
  /\ exists items out1 c out2,
       collect src_dir [] = (Ok items, out1)
       /\ correlate test_dir items out1 = (Ok c, out2)
       /\ Forall duplicate_line out1
       /\ items !! item_name line = None
       /\ covered c !! item_name line = None
       /\ uncovered c !! item_name line = None.
Proof.
  intros Hd Hp. split; [intros; by apply collect_line_private|].
  destruct (run_phases src_dir test_dir)
    as (items & out1 & c & out2 & Hc & (Hk & Hw & _) & Hr & [Hs _] & _).
  destruct (splits_public _ _ Hs Hk) as [Hkc Hku].
  exists items, out1, c, out2. split_and!; try done.
  - destruct (items !! item_name line) eqn:E; [|done].
    rewrite Hk in Hp by eauto. done.
  - destruct (covered c !! item_name line) eqn:E; [|done].
    rewrite Hkc in Hp by eauto. done.
  - destruct (uncovered c !! item_name line) eqn:E; [|done].
    rewrite Hku in Hp by eauto. done.
Qed.

Lemma private_names_ignored_witness :
  (forall items out,
     collect_line "extra.scad" (4, "function _internal(x) = x;") items out
     = (Ok items, out))
  /\ exists items out1 c out2,
       collect [("shapes.scad", ["module _internal()"; "module box()"]);
                ("extra.scad", ["module box()"])] []
       = (Ok items, out1)
       /\ correlate [("test_shapes.scad", ["module test__internal()"])]
            items out1
          = (Ok c, out2)
       /\ Forall duplicate_line out1
       /\ items !! "_internal" = None
       /\ covered c !! "_internal" = None
       /\ uncovered c !! "_internal" = None.
Proof.
  apply (private_names_ignored
           [("shapes.scad", ["module _internal()"; "module box()"]);
            ("extra.scad", ["module box()"])]
           [("test_shapes.scad", ["module test__internal()"])]
           "extra.scad" 4 "function _internal(x) = x;");
    reflexivity.
Defined.

(** C6. For a test module whose name starts with [test_], the name is cut
    once, at its first underscore, the one that ends the marker: the
    subscript [[1]] never fails and the target is the whole remainder of
    the name after [test_].  It is at this target that the correlator
    consults the uncovered set. *)
Theorem test_target (filename : string) (linenum : nat) (line : string)
    (c : coverage) (out : list string) :
  Str.startswith "module " line = true ->
  Str.startswith "test_" (extract 7 line) = true ->
  let testmodule := extract 7 line in
  let itemname := Str.slice_from 5 testmodule in
  testmodule = "test_" +:+ itemname
  /\ Str.splitn "_" 1 testmodule = ["test"; itemname]
  /\ getitem (Str.splitn "_" 1 testmodule) 1 out = (Ok itemname, out)
  /\ correlate_line filename (linenum, line) c out
     = match uncovered c !! itemname with
       | Some e =>
           (Ok (cover itemname filename (linenum + 1) e.2 c),
            out ++ mismatch filename linenum itemname e)
       | None => (Ok c, out)
       end.
Proof.
  intros Hm Ht testmodule itemname.
  pose proof (startswith_split _ _ Ht) as Hsplit.
  split_and!; [done|by apply split_test_prefix|
               |by apply correlate_line_target].
  unfold getitem. by rewrite split_test_prefix.
Qed.

Lemma test_target_witness :
  extract 7 "module test_foo_bar(x) {" = "test_" +:+ "foo_bar"
  /\ Str.splitn "_" 1 "test_foo_bar" = ["test"; "foo_bar"]
  /\ getitem (Str.splitn "_" 1 "test_foo_bar") 1 [] = (Ok "foo_bar", [])
  /\ correlate_line "test_foo.scad" (0, "module test_foo_bar(x) {")
       (Coverage ∅ {["foo_bar" := ("foo.scad", 1, "function")]}) []
     = (Ok (Coverage {["foo_bar" := ("test_foo.scad", 1, "function")]} ∅), []).
Proof.
  exact (test_target "test_foo.scad" 0 "module test_foo_bar(x) {"
           (Coverage ∅ {["foo_bar" := ("foo.scad", 1, "function")]}) []
           eq_refl eq_refl).
Defined.

(** C7. A test of an uncovered declaration found in a file that is not
    named [test_<source file>] prints the two lines of the mismatch
    warning, and the declaration is recorded as covered and removed from
    the uncovered set all the same. *)
Theorem mismatch_is_advisory (filename : string) (linenum : nat)
    (line : string) (c : coverage) (out : list string)
    (itemname src_filename : string) (src_line : nat) (item_type : string) :
  Str.startswith "module " line = true ->
  extract 7 line = "test_" +:+ itemname ->
  uncovered c !! itemname = Some (src_filename, src_line, item_type) ->
  filename ≠ "test_" +:+ src_filename ->
  exists c',
    correlate_line filename (linenum, line) c out
    = (Ok c',
       out ++ [defined_at item_type itemname src_filename src_line;
               tested_at filename (linenum + 1)])
    /\ covered c' !! itemname = Some (filename, linenum + 1, item_type)
    /\ uncovered c' !! itemname = None
    /\ (forall k, k ≠ itemname ->
          covered c' !! k = covered c !! k
          /\ uncovered c' !! k = uncovered c !! k).
Proof.
  intros Hm Ht Hl Hne.
  exists (cover itemname filename (linenum + 1) item_type c).
  rewrite (correlate_line_target _ _ _ _ _ _ Hm Ht), Hl.
  unfold mismatch. rewrite bool_decide_eq_true_2 by done.
  unfold cover. simpl. split_and!; [done|..].
  - apply lookup_insert_eq.
  - apply lookup_delete_eq.
  - intros k Hk. by rewrite lookup_insert_ne, lookup_delete_ne.
Qed.

Lemma mismatch_is_advisory_witness :
  exists c',
    correlate_line "test_other.scad" (1, "module test_box(...)")
      (Coverage ∅ {["box" := ("shapes.scad", 3, "module")]}) []
    = (Ok c',
       ["WARNING!!! Module box defined at shapes.scad:3";
        "           but tested at test_other.scad:2"])
    /\ covered c' !! "box" = Some ("test_other.scad", 2, "module")
    /\ uncovered c' !! "box" = None
    /\ (forall k, k ≠ "box" ->
          covered c' !! k = (∅ : gmap string entry) !! k
          /\ uncovered c' !! k
             = ({["box" := ("shapes.scad", 3, "module")]}
                  : gmap string entry) !! k).
Proof.
  assert ("test_other.scad" ≠ "test_" +:+ "shapes.scad") as Hne
    by discriminate.
  exact (mismatch_is_advisory "test_other.scad" 1 "module test_box(...)"
           (Coverage ∅ {["box" := ("shapes.scad", 3, "module")]}) []
           "box" "shapes.scad" 3 "module" eq_refl eq_refl eq_refl Hne).
Defined.

(** [box] of [shapes.scad] tested in [test_other.scad]: warned about, and
    covered. *)
Example mismatch_run :
  run [("shapes.scad", ["// shapes"; ""; "module box(...)"])]
      [("test_other.scad", ["module test_box(...)"])]
  = (Ok tt,
     ["WARNING!!! Module box defined at shapes.scad:3";
      "           but tested at test_other.scad:1";
      "NOT COVERED:";
      "Total coverage: 1 of 1 items (100.00%)"]).
Proof. reflexivity. Qed.

(** C8. The report of a run is the header and then the groups of the
    uncovered items, one group per source file having some: the groups come
    in ascending order of their number of items, and the items of a group
    in ascending order of their names. *)
Theorem report_order (src_dir test_dir : list file) :
  exists items out1 c warnings groups result tail,
    collect src_dir [] = (Ok items, out1)
    /\ correlate test_dir items out1 = (Ok c, warnings)
    /\ run src_dir test_dir
       = (result,
          warnings ++ "NOT COVERED:" :: concat (map render groups) ++ tail)
    /\ length tail <= 1
    /\ StronglySorted le
         (map (fun g : string * list listed => length g.2) groups)
    /\ (forall g, g ∈ groups ->
          StronglySorted String.le g.2.*1 /\ NoDup g.2.*1)
    /\ NoDup groups.*1
    /\ (forall fn name ty,
          (exists its, (fn, its) ∈ groups /\ (name, ty) ∈ its)
          <-> exists ln, uncovered c !! name = Some (fn, ln, ty)).
Proof.
  destruct (run_phases src_dir test_dir)
    as (items & out1 & c & out2 & Hc & _ & Hr & _ & Hrun).
  destruct (print_total_out items (covered c)
              (out2 ++ "NOT COVERED:"
                 :: concat (map render (report_groups (uncovered c)))))
    as (result & tail & Hp & Htail).
  exists items, out1, c, out2, (report_groups (uncovered c)), result, tail.
  split_and!; [done|done| |done|apply report_groups_ascending
               |apply report_groups_names|apply report_groups_files
               |apply report_groups_complete].
  rewrite Hrun, Hp. by rewrite <- app_assoc.
Qed.

Lemma report_order_witness :
  exists items out1 c warnings groups result tail,
    collect [("shapes.scad", ["module zeta()"; "module alpha()"]);
             ("extra.scad", ["function mid() = 1;"])] []
    = (Ok items, out1)
    /\ correlate [] items out1 = (Ok c, warnings)
    /\ run [("shapes.scad", ["module zeta()"; "module alpha()"]);
            ("extra.scad", ["function mid() = 1;"])] []
       = (result,
          warnings ++ "NOT COVERED:" :: concat (map render groups) ++ tail)
    /\ length tail <= 1
    /\ StronglySorted le
         (map (fun g : string * list listed => length g.2) groups)
    /\ (forall g, g ∈ groups ->
          StronglySorted String.le g.2.*1 /\ NoDup g.2.*1)
    /\ NoDup groups.*1
    /\ (forall fn name ty,
          (exists its, (fn, its) ∈ groups /\ (name, ty) ∈ its)
          <-> exists ln, uncovered c !! name = Some (fn, ln, ty)).
Proof.
  exact (report_order
           [("shapes.scad", ["module zeta()"; "module alpha()"]);
            ("extra.scad", ["function mid() = 1;"])] []).
Defined.

(** The report of that run: the file with one uncovered item comes first,
    and [alpha] before [zeta]. *)
Example report_order_run :
  run [("shapes.scad", ["module zeta()"; "module alpha()"]);
       ("extra.scad", ["function mid() = 1;"])] []
  = (Ok tt,
     ["NOT COVERED:";
      "  extra.scad: 1 uncovered items";
      "    function mid";
      "  shapes.scad: 2 uncovered items";
      "    module alpha";
      "    module zeta";
      "Total coverage: 0 of 3 items (0.00%)"]).
Proof. reflexivity. Qed.

(** C9. A declaration line with nothing, or with a parenthesis, right after
    the marker has the empty name.  The empty name is not private: after the
    line the registry has the key [""], and when it is new the registry
    grows by one, at no output.  A test module declared [module test_(...)]
    covers it. *)
Theorem empty_name (marker rest : string) :
  marker = "module " \/ marker = "function " ->
  Str.strip rest = "" \/ Str.startswith "(" rest = true ->
  let line := marker +:+ rest in
  is_declaration line = true
  /\ item_name line = ""
  /\ Str.startswith "_" (item_name line) = false
  /\ (forall filename linenum (items : gmap string entry) out,
        exists items' out',
          collect_line filename (linenum, line) items out = (Ok items', out')
          /\ is_Some (items' !! "")
          /\ (items !! "" = None ->
              out' = out
              /\ items'
                 = <["" := (filename, linenum + 1, item_type_of line)]> items
              /\ size items' = S (size items)))
  /\ (forall filename linenum args (c : coverage) out e,
        uncovered c !! "" = Some e ->
        exists c' out',
          correlate_line filename (linenum, "module test_(" +:+ args) c out
          = (Ok c', out')
          /\ covered c' !! "" = Some (filename, linenum + 1, e.2)
          /\ uncovered c' !! "" = None).
Proof.
  intros Hmarker Hrest line.
  assert (is_declaration line = true /\ item_name line = "") as [Hd Hn].
  { unfold is_declaration, item_name, line.
    destruct Hmarker as [-> | ->].
    - rewrite startswith_app. split; [done|]. by apply extract_nothing.
    - change (Str.startswith "module " ("function " +:+ rest)) with false.
      rewrite startswith_app. split; [done|]. by apply extract_nothing. }
  split_and!; [done|done|by rewrite Hn|..].
  - intros filename linenum items out.
    destruct (items !! "") as [[[pf pl] pt]|] eqn:E.
    + eexists _, _. split; [|split; [|done]].
      * eapply collect_line_duplicate; by rewrite ?Hn.
      * by rewrite E.
    + eexists _, _. split; [|split].
      * apply collect_line_new; by rewrite ?Hn.
      * rewrite Hn, lookup_insert_eq. eauto.
      * intros _. rewrite Hn. split_and!; [done..|].
        by apply map_size_insert_None.
  - intros filename linenum args c out e He.
    rewrite (correlate_line_target _ _ _ _ _ ""
               (startswith_app "module " _) (extract_test_nothing args)).
    rewrite He. eexists _, _. split; [done|]. unfold cover. simpl.
    by rewrite lookup_insert_eq, lookup_delete_eq.
Qed.

Lemma empty_name_witness :
  is_declaration "function (x) = x;" = true
  /\ item_name "function (x) = x;" = ""
  /\ Str.startswith "_" (item_name "function (x) = x;") = false
  /\ (forall filename linenum (items : gmap string entry) out,
        exists items' out',
          collect_line filename (linenum, "function (x) = x;") items out
          = (Ok items', out')
          /\ is_Some (items' !! "")
          /\ (items !! "" = None ->
              out' = out
              /\ items' = <["" := (filename, linenum + 1, "function")]> items
              /\ size items' = S (size items)))
  /\ (forall filename linenum args (c : coverage) out e,
        uncovered c !! "" = Some e ->
        exists c' out',
          correlate_line filename (linenum, "module test_(" +:+ args) c out
          = (Ok c', out')
          /\ covered c' !! "" = Some (filename, linenum + 1, e.2)
          /\ uncovered c' !! "" = None).
Proof.
  exact (empty_name "function " "(x) = x;" (or_intror eq_refl)
           (or_intror eq_refl)).
Defined.

(** A run with the empty name declared, counted and covered. *)
Example empty_name_run :
  run [("a.scad", ["module (...)"])] [("test_a.scad", ["module test_(...)"])]
  = (Ok tt, ["NOT COVERED:"; "Total coverage: 1 of 1 items (100.00%)"]).
Proof. reflexivity. Qed.

(** C10. With an empty registry the header [NOT COVERED:] is printed, and
    nothing else, before the run is aborted by the division. *)
Theorem empty_registry_output (src_dir test_dir : list file) out1 :
  collect src_dir [] = (Ok ∅, out1) ->
  run src_dir test_dir = (Raise ZeroDivisionError, ["NOT COVERED:"]).
Proof.
  intros Hempty.
  destruct (run_phases src_dir test_dir)
    as (items & out1' & c & out2 & Hc & (_ & _ & Hout1) & _ & [Hs Hout2]
        & Hrun).
  rewrite Hempty in Hc. injection Hc as <- <-.
  rewrite Hrun, Hout2, Hout1 by done.
  apply splits_empty in Hs as [-> ->].
  by rewrite print_total_empty.
Qed.

Lemma empty_registry_output_witness :
  run [("README.md", ["module box()"]); ("empty.scad", ["// module box()"])]
      [("test_box.scad", ["module test_box()"])]
  = (Raise ZeroDivisionError, ["NOT COVERED:"]).
Proof.
  apply (empty_registry_output
           [("README.md", ["module box()"]);
            ("empty.scad", ["// module box()"])]
           [("test_box.scad", ["module test_box()"])] []).
  reflexivity.
Defined.

(** * Further properties of the script *)

(** ** The scans as loops over the located lines *)

Section loop_shapes.
Context {A B S : Type}.

Lemma for_each_map (f : A -> B) (body : B -> S -> M S) l s out :
  for_each body (map f l) s out = for_each (fun x => body (f x)) l s out.
Proof.
  revert s out. induction l as [|x l IH]; intros s out; [done|].
  simpl. unfold mbind, M_bind.
  destruct (body (f x) s out) as [[s'|e] out']; [apply IH|done].
Qed.

Lemma for_each_flat_map (f : A -> list B) (body : B -> S -> M S) l s out :
  for_each body (flat_map f l) s out
  = for_each (fun x => for_each body (f x)) l s out.
Proof.
  revert s out. induction l as [|x l IH]; intros s out; [done|].
  simpl. rewrite for_each_app. unfold mbind, M_bind.
  destruct (for_each body (f x) s out) as [[s'|e] out']; [apply IH|done].
Qed.

(** Turns that do nothing can be left out. *)
Lemma for_each_filter (P : A -> bool) (body : A -> S -> M S) l s out :
  (forall x s out, P x = false -> body x s out = (Ok s, out)) ->
  for_each body (filter (fun x => P x) l) s out = for_each body l s out.
Proof.
  intros Hskip. revert s out.
  induction l as [|x l IH]; intros s out; [done|].
  rewrite filter_cons. case_decide as E.
  - simpl. unfold mbind, M_bind.
    destruct (body x s out) as [[s'|e] out']; [apply IH|done].
  - apply Is_true_false in E.
    by rewrite (for_each_cons_ok _ _ _ _ _ _ _ (Hskip x s out E)).
Qed.

(** An invariant that speaks of the turns already made. *)
Lemma for_each_prefix_inv (body : A -> S -> M S)
    (inv : list A -> S -> list string -> Prop) l :
  (forall pre x s out, inv pre s out ->
     exists s' out', body x s out = (Ok s', out') /\ inv (pre ++ [x]) s' out') ->
  forall s out, inv [] s out ->
    exists s' out', for_each body l s out = (Ok s', out') /\ inv l s' out'.
Proof.
  intros Hbody.
  enough (forall pre s out, inv pre s out ->
            exists s' out',
              for_each body l s out = (Ok s', out') /\ inv (pre ++ l) s' out')
    as H by (intros s out; apply (H [])).
  induction l as [|x l IH]; intros pre s out Hinv.
  - exists s, out. by rewrite app_nil_r.
  - destruct (Hbody pre x s out Hinv) as (s1 & out1 & Hx & Hinv1).
    destruct (IH _ _ _ Hinv1) as (s2 & out2 & Hl & Hinv2).
    exists s2, out2. rewrite (for_each_cons_ok _ _ _ _ _ _ _ Hx).
    split; [done|]. by rewrite <- app_assoc in Hinv2.
Qed.
End loop_shapes.

Lemma collect_file_located f items out :
  is_source f = true ->
  collect_file f items out
  = for_each collect_located (located_lines f) items out.
Proof.
  destruct f as [filename lines]. unfold is_source, collect_file. simpl.
  intros ->. unfold located_lines. by rewrite for_each_map.
Qed.

Lemma collect_file_other f items out :
  is_source f = false -> collect_file f items out = (Ok items, out).
Proof.
  destruct f as [filename lines]. unfold is_source, collect_file. simpl.
  by intros ->.
Qed.

(** The scan of the source directory is one loop over its lines. *)
Lemma collect_located_lines src_dir out :
  collect src_dir out
  = for_each collect_located (source_lines src_dir) ∅ out.
Proof.
  unfold collect, source_lines.
  rewrite for_each_flat_map.
  rewrite <- (for_each_filter is_source collect_file)
    by (intros; by apply collect_file_other).
  generalize (∅ : gmap string entry). revert out.
  induction src_dir as [|f src IH]; intros out items; [done|].
  rewrite filter_cons. case_decide as E; [|apply IH].
  apply Is_true_true in E. simpl. unfold mbind, M_bind.
  rewrite (collect_file_located _ _ _ E).
  destruct (for_each _ _ _ _) as [[s'|e] out']; [apply IH|done].
Qed.

Lemma correlate_file_located f c out :
  is_test_file f = true ->
  correlate_file f c out
  = for_each correlate_located (located_lines f) c out.
Proof.
  destruct f as [filename lines]. unfold is_test_file, correlate_file. simpl.
  intros ->. unfold located_lines. by rewrite for_each_map.
Qed.

Lemma correlate_file_other f c out :
  is_test_file f = false -> correlate_file f c out = (Ok c, out).
Proof.
  destruct f as [filename lines]. unfold is_test_file, correlate_file. simpl.
  by intros ->.
Qed.

(** The scan of the test directory is one loop over its lines. *)
Lemma correlate_located_lines test_dir items out :
  correlate test_dir items out
  = for_each correlate_located (test_lines test_dir) (Coverage ∅ items) out.
Proof.
  unfold correlate, test_lines.
  rewrite for_each_flat_map.
  rewrite <- (for_each_filter is_test_file correlate_file)
    by (intros; by apply correlate_file_other).
  generalize (Coverage ∅ items). revert out.
  induction test_dir as [|f tests IH]; intros out c; [done|].
  rewrite filter_cons. case_decide as E; [|apply IH].
  apply Is_true_true in E. simpl. unfold mbind, M_bind.
  rewrite (correlate_file_located _ _ _ E).
  destruct (for_each _ _ _ _) as [[s'|e] out']; [apply IH|done].
Qed.

(** ** First declarations *)

Lemma find_snoc {A} (P : A -> bool) l x :
  List.find P (l ++ [x])
  = match List.find P l with
    | Some y => Some y
    | None => if P x then Some x else None
    end.
Proof.
  induction l as [|y l IH]; simpl; [done|]. by destruct (P y).
Qed.

Lemma find_is_Some {A} (P : A -> bool) l :
  is_Some (List.find P l) <-> exists x, x ∈ l /\ P x = true.
Proof.
  split.
  - intros [x Hx]. apply find_some in Hx as [Hin Hp].
    exists x. by rewrite list_elem_of_In.
  - intros (x & Hin%list_elem_of_In & Hp).
    destruct (List.find P l) eqn:E; [done|].
    rewrite (find_none _ _ E x Hin) in Hp. done.
Qed.

Lemma declares_true name l :
  declares name l = true
  <-> is_declaration l.2.2 = true /\ item_name l.2.2 = name.
Proof.
  unfold declares. by rewrite andb_true_iff, String.eqb_eq.
Qed.

Lemma declares_false name l :
  is_declaration l.2.2 = false \/ item_name l.2.2 ≠ name ->
  declares name l = false.
Proof.
  intros H. destruct (declares name l) eqn:E; [|done].
  apply declares_true in E as [E1 E2]. destruct H; congruence.
Qed.

Lemma first_declaration_snoc name pre l :
  first_declaration name (pre ++ [l])
  = match first_declaration name pre with
    | Some e => Some e
    | None => if declares name l then Some (entry_of l) else None
    end.
Proof.
  unfold first_declaration. rewrite find_snoc.
  destruct (List.find _ pre); [done|]. by destruct (declares name l).
Qed.

Lemma length_filter_snoc {A} (P : A -> bool) pre x :
  length (filter (fun y => P y) (pre ++ [x]))
  = length (filter (fun y => P y) pre) + (if P x then 1 else 0).
Proof.
  rewrite filter_app, length_app, filter_cons, filter_nil.
  case_decide as E.
  - by apply Is_true_true in E as ->.
  - by apply Is_true_false in E as ->.
Qed.

Lemma collected_step pre l items out :
  collected pre items out ->
  exists items' out',
    collect_located l items out = (Ok items', out')
    /\ collected (pre ++ [l]) items' out'.
Proof.
  intros [Hreg Hcount]. destruct l as [filename [linenum line]].
  unfold collect_located, collected. simpl fst; simpl snd.
  rewrite (length_filter_snoc is_public_declaration).
  change (is_public_declaration (filename, (linenum, line)))
    with (is_declaration line && negb (Str.startswith "_" (item_name line))).
  destruct (is_declaration line) eqn:Hd.
  2:{ exists items, out. split; [by apply collect_line_other|].
      split.
      - intros name. rewrite first_declaration_snoc, Hreg.
        rewrite declares_false by (by left).
        by destruct (first_declaration name pre).
      - simpl. lia. }
  destruct (Str.startswith "_" (item_name line)) eqn:Hp.
  { exists items, out. split; [by apply collect_line_private|].
    split.
    - intros name. rewrite first_declaration_snoc, Hreg.
      destruct (Str.startswith "_" name) eqn:Hn; [done|].
      rewrite declares_false by (right; simpl; congruence).
      by destruct (first_declaration name pre).
    - simpl. lia. }
  simpl andb. cbv iota.
  destruct (items !! item_name line) as [[[pf pl] pt]|] eqn:Hl.
  - eexists _, _. split; [by eapply collect_line_duplicate|].
    split.
    + intros name. rewrite first_declaration_snoc, Hreg.
      destruct (Str.startswith "_" name) eqn:Hn; [done|].
      destruct (first_declaration name pre) eqn:Hf; [done|].
      rewrite declares_false; [done|]. right. simpl. intros <-.
      rewrite Hreg, Hp, Hf in Hl. done.
    + rewrite length_app. simpl. lia.
  - eexists _, _. split; [by apply collect_line_new|].
    split.
    + intros name. rewrite first_declaration_snoc.
      destruct (decide (item_name line = name)) as [<-|Hne].
      * rewrite lookup_insert_eq, Hp.
        rewrite Hreg, Hp in Hl. rewrite Hl.
        assert (declares (item_name line) (filename, (linenum, line)) = true)
          as -> by (by apply declares_true).
        done.
      * rewrite lookup_insert_ne, Hreg by done.
        rewrite declares_false by (by right).
        by destruct (first_declaration name pre).
    + rewrite map_size_insert_None by done. lia.
Qed.

Lemma collected_init : collected [] ∅ [].
Proof.
  split; [|done]. intros name. rewrite lookup_empty.
  by destruct (Str.startswith "_" name).
Qed.

Lemma collect_collected src_dir :
  exists items out,
    collect src_dir [] = (Ok items, out)
    /\ collected (source_lines src_dir) items out.
Proof.
  rewrite collect_located_lines.
  apply (for_each_prefix_inv collect_located collected);
    [apply collected_step|apply collected_init].
Qed.

Lemma filter_twice {A} (P : A -> Prop) `{!forall x, Decision (P x)}
    (l : list A) :
  filter P (filter P l) = filter P l.
Proof.
  induction l as [|x l IH]; [done|].
  rewrite filter_cons. case_decide; [|done].
  rewrite filter_cons, decide_True by done. by rewrite IH.
Qed.

Lemma source_lines_filter src_dir :
  source_lines (filter (fun f => is_source f) src_dir) = source_lines src_dir.
Proof. unfold source_lines. by rewrite filter_twice. Qed.

Lemma test_lines_filter test_dir :
  test_lines (filter (fun f => is_test_file f) test_dir) = test_lines test_dir.
Proof. unfold test_lines. by rewrite filter_twice. Qed.

(** The names in the registry are the public names some line declares. *)
Lemma collected_names ls items out name :
  collected ls items out ->
  is_Some (items !! name)
  <-> exists l, l ∈ ls /\ is_public_declaration l = true
                /\ item_name l.2.2 = name.
Proof.
  intros [Hreg _]. rewrite Hreg. unfold first_declaration.
  unfold is_public_declaration. split.
  - destruct (Str.startswith "_" name) eqn:Hn; [by intros [? ?]|].
    rewrite fmap_is_Some, find_is_Some.
    intros (l & Hin & [Hd <-]%declares_true).
    exists l. by rewrite Hd, Hn.
  - intros (l & Hin & [Hd Hp%negb_true_iff]%andb_true_iff & <-).
    rewrite Hp, fmap_is_Some, find_is_Some.
    exists l. split; [done|]. by apply declares_true.
Qed.

(** X1. Entries of the source directory whose name does not end in
    [.scad], and entries of the test directory whose name does not both
    start with [test_] and end in [.scad], have no influence on a run. *)
Theorem unrelated_entries_ignored (src_dir test_dir : list file) :
  run src_dir test_dir
  = run (filter (fun f => is_source f) src_dir)
        (filter (fun f => is_test_file f) test_dir).
Proof.
  unfold run, main, mbind, M_bind.
  rewrite !collect_located_lines, source_lines_filter.
  destruct (for_each collect_located _ _ _) as [[items|e] out1]; [|done].
  by rewrite !correlate_located_lines, test_lines_filter.
Qed.

(** X2. The registry maps every name without a leading underscore to its
    first declaration in reading order (file, 1-based line and kind), and
    holds no other name. *)
Theorem registry_first_declaration (src_dir : list file) :
  exists items out,
    collect src_dir [] = (Ok items, out)
    /\ forall name,
         items !! name
         = if Str.startswith "_" name then None
           else first_declaration name (source_lines src_dir).
Proof.
  destruct (collect_collected src_dir) as (items & out & Hc & [Hreg _]).
  by exists items, out.
Qed.

(** X3. Every public declaration line is accounted for: it either entered
    the registry or was answered by the two lines of a duplicate warning,
    and the collector prints nothing else. *)
Theorem declarations_accounted (src_dir : list file) :
  exists items out,
    collect src_dir [] = (Ok items, out)
    /\ 2 * size items + length out
       = 2 * length (filter (fun l => is_public_declaration l)
                            (source_lines src_dir)).
Proof.
  destruct (collect_collected src_dir) as (items & out & Hc & [_ Hcount]).
  by exists items, out.
Qed.

(** X4. When no public name is declared twice, the collector prints
    nothing and the registry has one entry per public declaration line. *)
Theorem distinct_names_scan_silently (src_dir : list file) :
  NoDup (map (fun l : located => item_name l.2.2)
             (filter (fun l => is_public_declaration l)
                     (source_lines src_dir))) ->
  exists items,
    collect src_dir [] = (Ok items, [])
    /\ size items
       = length (filter (fun l => is_public_declaration l)
                        (source_lines src_dir)).
Proof.
  intros Hnd.
  destruct (collect_collected src_dir) as (items & out & Hc & Hcol).
  set (names := map _ _) in Hnd.
  assert (dom items = list_to_set names) as Hdom.
  { apply set_eq. intros k.
    rewrite elem_of_dom, (collected_names _ _ _ _ Hcol), elem_of_list_to_set.
    unfold names. rewrite list_elem_of_In, in_map_iff. split.
    - intros (l & Hin & Hp & <-). exists l. split; [done|].
      apply list_elem_of_In, list_elem_of_filter. by rewrite Hp.
    - intros (l & <- & [Hp Hin]%list_elem_of_In%list_elem_of_filter).
      exists l. split_and!; [done| |done]. by apply Is_true_true. }
  assert (size items = length names) as Hsize.
  { by rewrite <- size_dom, Hdom, size_list_to_set. }
  destruct Hcol as [_ Hcount]. unfold names in Hsize.
  rewrite length_map in Hsize. rewrite Hsize in Hcount.
  destruct out; [|simpl in Hcount; lia].
  by exists items.
Qed.

Lemma distinct_names_scan_silently_witness :
  exists items,
    collect [("a.scad", ["module a()"; "function _a() = 1;"]);
             ("b.scad", ["function b() = 2;"; "function _a() = 3;"])] []
    = (Ok items, [])
    /\ size items = 2.
Proof.
  apply (distinct_names_scan_silently
           [("a.scad", ["module a()"; "function _a() = 1;"]);
            ("b.scad", ["function b() = 2;"; "function _a() = 3;"])]).
  vm_compute. repeat constructor; set_solver.
Defined.

(** ** First tests *)

Lemma tests_true name l :
  tests name l = true
  <-> Str.startswith "module " l.2.2 = true
      /\ extract 7 l.2.2 = "test_" +:+ name.
Proof. unfold tests. by rewrite andb_true_iff, String.eqb_eq. Qed.

Lemma tests_false name l :
  Str.startswith "module " l.2.2 = false
  \/ extract 7 l.2.2 ≠ "test_" +:+ name ->
  tests name l = false.
Proof.
  intros H. destruct (tests name l) eqn:E; [|done].
  apply tests_true in E as [E1 E2]. destruct H; congruence.
Qed.

Lemma first_test_snoc name pre l :
  first_test name (pre ++ [l])
  = match first_test name pre with
    | Some x => Some x
    | None => if tests name l then Some l else None
    end.
Proof. apply find_snoc. Qed.

Lemma correlated_lines_same items out0 pre l c out :
  (forall name, tests name l = true -> uncovered c !! name = None) ->
  correlated_lines items out0 pre c out ->
  correlated_lines items out0 (pre ++ [l]) c out.
Proof.
  intros Hl (Hcov & Hunc & Hlen). split_and!; [| |done].
  - intros name. rewrite Hcov, first_test_snoc.
    destruct (first_test name pre) eqn:Hf; [done|].
    destruct (tests name l) eqn:Ht; [|done].
    specialize (Hl name Ht). rewrite Hunc, Hf in Hl. by rewrite Hl.
  - intros name. rewrite Hunc, first_test_snoc.
    destruct (first_test name pre) eqn:Hf; [done|].
    destruct (tests name l) eqn:Ht; [|done].
    specialize (Hl name Ht). by rewrite Hunc, Hf in Hl.
Qed.

Lemma correlated_lines_step items out0 pre l c out :
  correlated_lines items out0 pre c out ->
  exists c' out',
    correlate_located l c out = (Ok c', out')
    /\ correlated_lines items out0 (pre ++ [l]) c' out'.
Proof.
  intros Hinv. destruct l as [filename [linenum line]].
  unfold correlate_located. simpl fst; simpl snd.
  destruct (Str.startswith "module " line) eqn:Hm.
  2:{ exists c, out. split; [by apply correlate_line_other|].
      apply correlated_lines_same; [|done].
      intros name Ht. by rewrite tests_false in Ht by (by left). }
  destruct (Str.startswith "test_" (extract 7 line)) eqn:Ht.
  2:{ exists c, out. split; [by apply correlate_line_not_test|].
      apply correlated_lines_same; [|done].
      intros name [_ Hn]%tests_true. simpl in Hn.
      by rewrite Hn, startswith_app in Ht. }
  apply startswith_split in Ht. simpl String.length in Ht.
  set (target := Str.slice_from 5 (extract 7 line)) in *.
  rewrite (correlate_line_target _ _ _ _ _ _ Hm Ht).
  assert (forall name,
            tests name (filename, (linenum, line))
            = bool_decide (name = target)) as Htests.
  { intros name. case_bool_decide as Hn.
    - subst name. by apply tests_true.
    - apply tests_false. right. simpl. rewrite Ht. intros Heq.
      by apply (inj (String.app "test_")) in Heq. }
  destruct (uncovered c !! target) as [e|] eqn:Hu.
  2:{ exists c, out. split; [done|].
      apply correlated_lines_same; [|done].
      intros name Hn. rewrite Htests in Hn.
      by apply bool_decide_eq_true in Hn as ->. }
  destruct Hinv as (Hcov & Hunc & w & Hout & Hlen).
  assert (first_test target pre = None /\ items !! target = Some e)
    as [Hfirst Hitem].
  { rewrite Hunc in Hu. by destruct (first_test target pre). }
  assert (covered c !! target = None) as Hfresh.
  { rewrite Hcov, Hfirst. by destruct (items !! target). }
  eexists _, _. split; [done|].
  unfold cover. split_and!; simpl.
  - intros name. rewrite first_test_snoc, Htests.
    case_bool_decide as Hn.
    + subst name. by rewrite lookup_insert_eq, Hitem, Hfirst.
    + rewrite lookup_insert_ne, Hcov by done.
      by destruct (first_test name pre).
  - intros name. rewrite first_test_snoc, Htests.
    case_bool_decide as Hn.
    + subst name. by rewrite lookup_delete_eq, Hfirst.
    + rewrite lookup_delete_ne, Hunc by done.
      by destruct (first_test name pre).
  - exists (w ++ mismatch filename linenum target e).
    split; [by rewrite Hout, app_assoc|].
    rewrite length_app, Hlen. unfold mismatch.
    destruct e as [[src_filename src_line] item_type].
    case_bool_decide as Hne.
    + rewrite map_filter_insert_True.
      2:{ unfold misnamed. simpl. by rewrite Hitem. }
      rewrite map_size_insert_None; [simpl; lia|].
      apply map_lookup_filter_None. by left.
    + rewrite map_filter_insert_not'.
      * simpl. lia.
      * unfold misnamed. simpl. rewrite Hitem. simpl. tauto.
      * intros y Hy. by rewrite Hfresh in Hy.
Qed.

Lemma correlated_lines_init items out0 :
  correlated_lines items out0 [] (Coverage ∅ items) out0.
Proof.
  split_and!; simpl.
  - intros name. rewrite lookup_empty. by destruct (items !! name).
  - done.
  - exists []. by rewrite app_nil_r, map_filter_empty, map_size_empty.
Qed.

Lemma correlate_correlated_lines test_dir items out0 :
  exists c out,
    correlate test_dir items out0 = (Ok c, out)
    /\ correlated_lines items out0 (test_lines test_dir) c out.
Proof.
  rewrite correlate_located_lines.
  apply (for_each_prefix_inv correlate_located (correlated_lines items out0));
    [apply correlated_lines_step|apply correlated_lines_init].
Qed.

(** X5. A declared name is covered exactly when some line of a test file
    is a test module for it; its coverage record is the place of the first
    such line in reading order, with the kind of the declaration. *)
Theorem covered_by_first_test (src_dir test_dir : list file) :
  exists items out1 c out2,
    collect src_dir [] = (Ok items, out1)
    /\ correlate test_dir items out1 = (Ok c, out2)
    /\ forall name,
         covered c !! name
         = match items !! name, first_test name (test_lines test_dir) with
           | Some e, Some l => Some (l.1, l.2.1 + 1, e.2)
           | _, _ => None
           end.
Proof.
  destruct (collect_collected src_dir) as (items & out1 & Hc & _).
  destruct (correlate_correlated_lines test_dir items out1)
    as (c & out2 & Hr & Hcov & _).
  by exists items, out1, c, out2.
Qed.

(** X6. The uncovered names are the declared names no line of a test file
    tests, each with its registry entry unchanged. *)
Theorem uncovered_are_untested (src_dir test_dir : list file) :
  exists items out1 c out2,
    collect src_dir [] = (Ok items, out1)
    /\ correlate test_dir items out1 = (Ok c, out2)
    /\ forall name,
         uncovered c !! name
         = match first_test name (test_lines test_dir) with
           | Some _ => None
           | None => items !! name
           end.
Proof.
  destruct (collect_collected src_dir) as (items & out1 & Hc & _).
  destruct (correlate_correlated_lines test_dir items out1)
    as (c & out2 & Hr & _ & Hunc & _).
  by exists items, out1, c, out2.
Qed.

(** X7. The correlator prints two lines for every coverage record whose
    test file is not named [test_<source file>], after the output of the
    collector, and nothing else. *)
Theorem mismatch_warnings_counted (src_dir test_dir : list file) :
  exists items out1 c warnings,
    collect src_dir [] = (Ok items, out1)
    /\ correlate test_dir items out1 = (Ok c, out1 ++ warnings)
    /\ length warnings = 2 * size (filter (misnamed items) (covered c)).
Proof.
  destruct (collect_collected src_dir) as (items & out1 & Hc & _).
  destruct (correlate_correlated_lines test_dir items out1)
    as (c & out2 & Hr & _ & _ & w & -> & Hlen).
  by exists items, out1, c, w.
Qed.

(** ** The order of the directory listings *)

Lemma source_lines_perm src_dir src_dir' :
  src_dir ≡ₚ src_dir' -> source_lines src_dir ≡ₚ source_lines src_dir'.
Proof.
  intros H. unfold source_lines. apply Permutation_flat_map. by rewrite H.
Qed.

Lemma test_lines_perm test_dir test_dir' :
  test_dir ≡ₚ test_dir' -> test_lines test_dir ≡ₚ test_lines test_dir'.
Proof.
  intros H. unfold test_lines. apply Permutation_flat_map. by rewrite H.
Qed.

Lemma first_test_is_Some name ls :
  is_Some (first_test name ls) <-> exists l, l ∈ ls /\ tests name l = true.
Proof. apply find_is_Some. Qed.

Lemma correlated_covered_names items out0 ls c out name :
  correlated_lines items out0 ls c out ->
  is_Some (covered c !! name)
  <-> is_Some (items !! name) /\ is_Some (first_test name ls).
Proof.
  intros (Hcov & _). rewrite Hcov.
  destruct (items !! name), (first_test name ls);
    split; try (by intros [? ?]); try (by intros [[? ?] [? ?]]); eauto.
Qed.

Lemma correlated_uncovered_names items out0 ls c out name :
  correlated_lines items out0 ls c out ->
  is_Some (uncovered c !! name)
  <-> is_Some (items !! name) /\ ~ is_Some (first_test name ls).
Proof.
  intros (_ & Hunc & _). rewrite Hunc.
  destruct (first_test name ls) eqn:E.
  - split; [by intros [? ?]|]. intros [_ []]. eauto.
  - split; [|by intros [? _]]. intros H. split; [done|]. by intros [? ?].
Qed.

Lemma run_total src_dir test_dir items out1 c out2 :
  collect src_dir [] = (Ok items, out1) ->
  correlate test_dir items out1 = (Ok c, out2) ->
  run src_dir test_dir
  = print_total items (covered c)
      (out2 ++ "NOT COVERED:"
            :: concat (map render (report_groups (uncovered c)))).
Proof.
  intros Hc Hr. unfold run, main.
  rewrite (bind_ok _ _ _ _ _ Hc), (bind_ok _ _ _ _ _ Hr).
  by rewrite (bind_ok _ _ _ _ _ (print_uncovered_ok _ _)).
Qed.

(** The aggregate line does not depend on what was printed before. *)
Lemma print_total_frame items cov out :
  print_total items cov out
  = ((print_total items cov []).1, out ++ (print_total items cov []).2).
Proof.
  unfold print_total, mbind, M_bind, Float.of_int.
  destruct (binary_normalize _ _ (Z.of_nat (size cov)) _ _);
    simpl; rewrite ?app_nil_r; try done;
    destruct (binary_normalize _ _ (Z.of_nat (size items)) _ _);
    simpl; by rewrite ?app_nil_r.
Qed.

Lemma print_total_sizes items items' cov cov' :
  size items = size items' -> size cov = size cov' ->
  print_total items cov [] = print_total items' cov' [].
Proof. unfold print_total. by intros -> ->. Qed.

Lemma print_total_line items cov :
  (print_total items cov []).1 = Ok tt ->
  exists line, (print_total items cov []).2 = [line].
Proof.
  destruct (print_total_out items cov []) as (r & tail & H & Hlen).
  rewrite H. simpl. intros ->.
  destruct tail as [|line [|]]; simpl in Hlen; try lia; [|by exists line].
  exfalso. revert H. unfold print_total, mbind, M_bind, Float.of_int.
  destruct (binary_normalize _ _ (Z.of_nat (size cov)) _ _);
    simpl; try done;
    destruct (binary_normalize _ _ (Z.of_nat (size items)) _ _);
    by simpl.
Qed.

(** X8. The order in which the directories list their entries may change
    the warnings and the files the names are attributed to, but not the
    names that are declared, covered and uncovered, nor the way the run
    ends, nor the aggregate line. *)
Theorem counts_independent_of_listing_order
    (src_dir src_dir' test_dir test_dir' : list file) :
  src_dir ≡ₚ src_dir' -> test_dir ≡ₚ test_dir' ->
  exists items items' out1 out1' c c' out2 out2',
    collect src_dir [] = (Ok items, out1)
    /\ collect src_dir' [] = (Ok items', out1')
    /\ correlate test_dir items out1 = (Ok c, out2)
    /\ correlate test_dir' items' out1' = (Ok c', out2')
    /\ dom items = dom items'
    /\ dom (covered c) = dom (covered c')
    /\ dom (uncovered c) = dom (uncovered c')
    /\ (run src_dir test_dir).1 = (run src_dir' test_dir').1
    /\ ((run src_dir test_dir).1 = Ok tt ->
        last (run src_dir test_dir).2 = last (run src_dir' test_dir').2).
Proof.
  intros Hsrc Htest.
  apply source_lines_perm in Hsrc. apply test_lines_perm in Htest.
  destruct (collect_collected src_dir) as (items & out1 & Hc & Hcol).
  destruct (collect_collected src_dir') as (items' & out1' & Hc' & Hcol').
  destruct (correlate_correlated_lines test_dir items out1)
    as (c & out2 & Hr & Hcor).
  destruct (correlate_correlated_lines test_dir' items' out1')
    as (c' & out2' & Hr' & Hcor').
  exists items, items', out1, out1', c, c', out2, out2'.
  assert (forall name, is_Some (items !! name) <-> is_Some (items' !! name))
    as Hnames.
  { intros name.
    rewrite (collected_names _ _ _ _ Hcol), (collected_names _ _ _ _ Hcol').
    by setoid_rewrite Hsrc. }
  assert (forall name,
            is_Some (first_test name (test_lines test_dir))
            <-> is_Some (first_test name (test_lines test_dir'))) as Htests.
  { intros name. rewrite !first_test_is_Some. by setoid_rewrite Htest. }
  assert (dom items = dom items') as Hd.
  { apply set_eq. intros k. by rewrite !elem_of_dom. }
  assert (dom (covered c) = dom (covered c')) as Hdc.
  { apply set_eq. intros k. rewrite !elem_of_dom.
    rewrite (correlated_covered_names _ _ _ _ _ _ Hcor),
      (correlated_covered_names _ _ _ _ _ _ Hcor').
    by rewrite Hnames, Htests. }
  assert (dom (uncovered c) = dom (uncovered c')) as Hdu.
  { apply set_eq. intros k. rewrite !elem_of_dom.
    rewrite (correlated_uncovered_names _ _ _ _ _ _ Hcor),
      (correlated_uncovered_names _ _ _ _ _ _ Hcor').
    by rewrite Hnames, Htests. }
  split_and!; try done.
  - rewrite (run_total _ _ _ _ _ _ Hc Hr), (run_total _ _ _ _ _ _ Hc' Hr').
    rewrite print_total_frame, (print_total_frame items').
    simpl. f_equal.
    apply print_total_sizes; by rewrite <- !size_dom, ?Hd, ?Hdc.
  - rewrite (run_total _ _ _ _ _ _ Hc Hr), (run_total _ _ _ _ _ _ Hc' Hr').
    rewrite print_total_frame, (print_total_frame items').
    simpl. intros Hok.
    rewrite <- (print_total_sizes items items' (covered c) (covered c'))
      by (by rewrite <- !size_dom, ?Hd, ?Hdc).
    destruct (print_total_line _ _ Hok) as [line ->].
    by rewrite !last_snoc.
Qed.

Lemma counts_independent_of_listing_order_witness :
  exists items items' out1 out1' c c' out2 out2',
    collect [("a.scad", ["module box()"]); ("b.scad", ["module box()"])] []
    = (Ok items, out1)
    /\ collect [("b.scad", ["module box()"]); ("a.scad", ["module box()"])] []
       = (Ok items', out1')
    /\ correlate [("test_a.scad", ["module test_box()"])] items out1
       = (Ok c, out2)
    /\ correlate [("test_a.scad", ["module test_box()"])] items' out1'
       = (Ok c', out2')
    /\ dom items = dom items'
    /\ dom (covered c) = dom (covered c')
    /\ dom (uncovered c) = dom (uncovered c')
    /\ (run [("a.scad", ["module box()"]); ("b.scad", ["module box()"])]
            [("test_a.scad", ["module test_box()"])]).1
       = (run [("b.scad", ["module box()"]); ("a.scad", ["module box()"])]
              [("test_a.scad", ["module test_box()"])]).1
    /\ ((run [("a.scad", ["module box()"]); ("b.scad", ["module box()"])]
             [("test_a.scad", ["module test_box()"])]).1 = Ok tt ->
        last (run [("a.scad", ["module box()"]); ("b.scad", ["module box()"])]
                  [("test_a.scad", ["module test_box()"])]).2
        = last (run [("b.scad", ["module box()"]);
                     ("a.scad", ["module box()"])]
                    [("test_a.scad", ["module test_box()"])]).2).
Proof.
  apply (counts_independent_of_listing_order
           [("a.scad", ["module box()"]); ("b.scad", ["module box()"])]
           [("b.scad", ["module box()"]); ("a.scad", ["module box()"])]
           [("test_a.scad", ["module test_box()"])]
           [("test_a.scad", ["module test_box()"])]);
    [apply perm_swap|reflexivity].
Defined.

(** With the two sources listed in one order or the other, the mismatch
    warning comes or not, and the aggregate line is the same. *)
Example listing_order_runs :
  run [("a.scad", ["module box()"]); ("b.scad", ["module box()"])]
      [("test_a.scad", ["module test_box()"])]
  = (Ok tt,
     ["WARNING!!! Module box re-defined at b.scad:1";
      "           Previously defined at a.scad:1";
      "NOT COVERED:";
      "Total coverage: 1 of 1 items (100.00%)"])
  /\ run [("b.scad", ["module box()"]); ("a.scad", ["module box()"])]
         [("test_a.scad", ["module test_box()"])]
     = (Ok tt,
        ["WARNING!!! Module box re-defined at a.scad:1";
         "           Previously defined at b.scad:1";
         "WARNING!!! Module box defined at b.scad:1";
         "           but tested at test_a.scad:1";
         "NOT COVERED:";
         "Total coverage: 1 of 1 items (100.00%)"]).
Proof. split; reflexivity. Qed.

(** ** The counts of the report *)

Lemma group_total_set_old k v v0 (d : Dict.t (list listed)) :
  Dict.find k d = Some v0 ->
  group_total (Dict.set k v d) + length v0 = group_total d + length v.
Proof.
  unfold group_total.
  induction d as [|[k' v'] d IH]; simpl; [done|].
  destruct (String.eqb k' k); simpl.
  - intros [= ->]. lia.
  - intros H. specialize (IH H). lia.
Qed.

Lemma group_total_set_new k v (d : Dict.t (list listed)) :
  Dict.find k d = None ->
  group_total (Dict.set k v d) = group_total d + length v.
Proof.
  intros H. rewrite (keys_set_new _ _ _ H). unfold group_total.
  rewrite sum_list_with_app. simpl. lia.
Qed.

Lemma group_total_add_item filename it d :
  group_total (add_item filename it d) = S (group_total d).
Proof.
  unfold add_item. destruct (Dict.find filename d) as [its|] eqn:E.
  - pose proof (group_total_set_old filename (its ++ [it]) its d E) as H.
    rewrite length_app in H. simpl in H. lia.
  - pose proof (group_total_set_old filename [it] []
                  (Dict.set filename [] d) (find_set_eq _ _ _)) as H.
    rewrite (group_total_set_new _ _ _ E) in H. simpl in H. lia.
Qed.

Lemma group_total_grouped tagged d :
  group_total (grouped tagged d) = group_total d + length tagged.
Proof.
  revert d. induction tagged as [|t tagged IH]; intros d; simpl; [lia|].
  rewrite IH, group_total_add_item. lia.
Qed.

Lemma length_sorted_keys unc : length (sorted_keys unc) = size unc.
Proof.
  unfold sorted_keys. rewrite sorted_perm, length_fmap.
  apply length_map_to_list.
Qed.

Lemma group_total_report unc :
  group_total (report_groups unc) = size unc.
Proof.
  unfold group_total. rewrite report_groups_perm.
  fold (group_total (by_file_of unc)). unfold by_file_of.
  rewrite group_total_grouped.
  rewrite <- length_sorted_keys.
  rewrite <- (tagged_names unc (sorted_keys unc)) at 2
    by (intros k; by rewrite elem_of_sorted_keys).
  by rewrite !length_fmap.
Qed.

(** X9. No printed group is empty, and the counts printed for the groups
    and the number of covered names add up to the size of the registry. *)
Theorem report_counts_add_up (src_dir test_dir : list file) :
  exists items out1 c warnings groups result tail,
    collect src_dir [] = (Ok items, out1)
    /\ correlate test_dir items out1 = (Ok c, warnings)
    /\ run src_dir test_dir
       = (result,
          warnings ++ "NOT COVERED:" :: concat (map render groups) ++ tail)
    /\ Forall (fun g : string * list listed => 0 < length g.2) groups
    /\ sum_list_with (fun g : string * list listed => length g.2) groups
       + size (covered c)
       = size items.
Proof.
  destruct (run_phases src_dir test_dir)
    as (items & out1 & c & out2 & Hc & _ & Hr & [Hs _] & Hrun).
  destruct (print_total_out items (covered c)
              (out2 ++ "NOT COVERED:"
                 :: concat (map render (report_groups (uncovered c)))))
    as (result & tail & Hp & _).
  exists items, out1, c, out2, (report_groups (uncovered c)), result, tail.
  split_and!; [done|done| | |].
  - rewrite Hrun, Hp. by rewrite <- app_assoc.
  - apply Forall_forall. intros g [_ Hne]%report_groups_items.
    destruct (g.2); [done|simpl; lia].
  - fold (group_total (report_groups (uncovered c))).
    rewrite group_total_report. apply splits_size in Hs. lia.
Qed.

(** ** How a run may end *)



(** X11. When no name is covered and the registry is not empty, the
    aggregate line reads [0 of <total> items (0.00%)]. *)
Theorem nothing_covered_line (src_dir test_dir : list file) :
  exists items out1 c out2,
    collect src_dir [] = (Ok items, out1)
    /\ correlate test_dir items out1 = (Ok c, out2)
    /\ (covered c = ∅ -> 0 < size items ->
        (Z.of_nat (size items) <= PY_SSIZE_T_MAX)%Z ->
        exists report,
          run src_dir test_dir
          = (Ok tt,
             report ++ ["Total coverage: 0 of " +:+ Str.of_nat (size items)
                        +:+ " items (0.00%)"])).
Proof.
  destruct (run_phases src_dir test_dir)
    as (items & out1 & c & out2 & Hc & _ & Hr & _ & Hrun).
  exists items, out1, c, out2. split_and!; [done..|].
  intros Hcov Hpos Hmax. rewrite Hrun, Hcov. eexists.
  unfold print_total. rewrite map_size_empty.
  destruct (of_int_positive (Z.of_nat (size items))
              (out2 ++ "NOT COVERED:"
                 :: concat (map render (report_groups (uncovered c)))))
    as (m & e & Ht); [lia|].
  rewrite (bind_ok _ _ _ _ _ (of_int_zero _)), (bind_ok _ _ _ _ _ Ht).
  reflexivity.
Qed.

Lemma nothing_covered_line_witness :
  exists report,
    run [("a.scad", ["module a()"; "module b()"])]
        [("notes.scad", ["module test_a()"])]
    = (Ok tt, report ++ ["Total coverage: 0 of 2 items (0.00%)"]).
Proof.
  destruct (nothing_covered_line
              [("a.scad", ["module a()"; "module b()"])]
              [("notes.scad", ["module test_a()"])])
    as (items & out1 & c & out2 & Hc & Hr & H).
  vm_compute in Hc. injection Hc as <- <-.
  vm_compute in Hr. injection Hr as <- <-.
  apply H; vm_compute; [reflexivity|lia|discriminate].
Defined.

(** ** The shape of the names *)

Lemma rstrip_twice s : Str.rstrip (Str.rstrip s) = Str.rstrip s.
Proof.
  induction s as [|c r IH]; [done|]. simpl.
  destruct (Str.rstrip r) as [|c' r'] eqn:E.
  - destruct (Str.isspace c) eqn:Hc; [done|]. simpl. by rewrite Hc.
  - change (Str.rstrip (String c (String c' r')))
      with (match Str.rstrip (String c' r') with
            | EmptyString =>
                if Str.isspace c then EmptyString else String c EmptyString
            | r'' => String c r''
            end).
    by rewrite IH.
Qed.

Lemma lstrip_head s :
  Str.lstrip s = ""
  \/ exists c r, Str.lstrip s = String c r /\ Str.isspace c = false.
Proof.
  induction s as [|c r IH]; [by left|]. simpl.
  destruct (Str.isspace c) eqn:Hc; [done|]. right. eauto.
Qed.

Lemma strip_twice s : Str.strip (Str.strip s) = Str.strip s.
Proof.
  unfold Str.strip. destruct (lstrip_head s) as [->|(c & r & -> & Hc)]; [done|].
  rewrite rstrip_cons by done. simpl Str.lstrip. rewrite Hc.
  by rewrite rstrip_cons, rstrip_twice.
Qed.

Lemma free_of_lstrip sep s :
  free_of sep s = true -> free_of sep (Str.lstrip s) = true.
Proof.
  induction s as [|c r IH]; [done|]. simpl.
  intros [Hc Hr]%andb_true_iff.
  destruct (Str.isspace c); [by apply IH|]. simpl. by rewrite Hc, Hr.
Qed.

Lemma free_of_rstrip sep s :
  free_of sep s = true -> free_of sep (Str.rstrip s) = true.
Proof.
  induction s as [|c r IH]; [done|]. simpl.
  intros [Hc Hr]%andb_true_iff. specialize (IH Hr).
  destruct (Str.rstrip r) as [|c' r'].
  - destruct (Str.isspace c); [done|]. simpl. by rewrite Hc.
  - simpl in *. by rewrite Hc, IH.
Qed.

Lemma free_of_strip sep s :
  free_of sep s = true -> free_of sep (Str.strip s) = true.
Proof. intros H. by apply free_of_rstrip, free_of_lstrip. Qed.

Lemma free_of_hd_splitn sep n s :
  free_of sep (hd "" (Str.splitn sep (S n) s)) = true.
Proof.
  induction s as [|c r IH]; [done|]. simpl.
  destruct (Ascii.eqb c sep) eqn:Hc; [done|].
  destruct (Str.splitn sep (S n) r) as [|h t]; simpl in *.
  - by rewrite Hc.
  - by rewrite Hc, IH.
Qed.

Lemma free_of_hd_split sep s : free_of sep (hd "" (Str.split sep s)) = true.
Proof.
  unfold Str.split. destruct s as [|c r]; [done|]. apply free_of_hd_splitn.
Qed.

Lemma extract_clean skip line :
  free_of "(" (extract skip line) = true /\ stripped (extract skip line).
Proof.
  unfold extract, stripped. split.
  - apply free_of_strip, free_of_hd_split.
  - apply strip_twice.
Qed.

(** X12. The names of the registry are clean: none holds a parenthesis,
    and none has white space at either end. *)
Theorem registry_names_clean (src_dir : list file) :
  exists items out,
    collect src_dir [] = (Ok items, out)
    /\ forall name,
         is_Some (items !! name) ->
         free_of "(" name = true /\ stripped name.
Proof.
  destruct (collect_collected src_dir) as (items & out & Hc & Hcol).
  exists items, out. split; [done|].
  intros name (l & _ & _ & <-)%(collected_names _ _ _ _ Hcol).
  apply extract_clean.
Qed.

Lemma registry_names_clean_witness :
  exists items out,
    collect [("a.scad", ["module   box  (size = (1)) {"; "function f(x)"])] []
    = (Ok items, out)
    /\ forall name,
         is_Some (items !! name) ->
         free_of "(" name = true /\ stripped name.
Proof.
  exact (registry_names_clean
           [("a.scad", ["module   box  (size = (1)) {"; "function f(x)"])]).
Defined.

(** ** The located lines and the directories *)

Lemma elem_of_enumerate_from {A} (l : list A) k i x :
  (i, x) ∈ zip (seq k (length l)) l <-> k <= i /\ l !! (i - k) = Some x.
Proof.
  revert k. induction l as [|y l IH]; intros k; simpl.
  - split; [by intros ?%elem_of_nil|]. by intros [_ ?].
  - rewrite elem_of_cons, IH. split.
    + intros [[= -> ->]|[Hk Hl]].
      * split; [lia|]. by rewrite Nat.sub_diag.
      * split; [lia|]. by replace (i - k) with (S (i - S k)) by lia.
    + intros [Hk Hl]. destruct (decide (i = k)) as [->|Hne].
      * left. rewrite Nat.sub_diag in Hl. simpl in Hl. congruence.
      * right. split; [lia|].
        by replace (i - k) with (S (i - S k)) in Hl by lia.
Qed.

Lemma elem_of_located_lines f l :
  l ∈ located_lines f <-> l.1 = f.1 /\ f.2 !! l.2.1 = Some l.2.2.
Proof.
  unfold located_lines, enumerate.
  rewrite list_elem_of_In, in_map_iff. destruct l as [fn [i line]]. simpl.
  split.
  - intros ([i' line'] & [= <- <- <-] & Hin%list_elem_of_In).
    apply elem_of_enumerate_from in Hin as [_ Hl].
    by rewrite Nat.sub_0_r in Hl.
  - intros [-> Hl]. exists (i, line). split; [done|].
    apply list_elem_of_In, elem_of_enumerate_from.
    split; [lia|]. by rewrite Nat.sub_0_r.
Qed.

Lemma elem_of_source_lines src_dir l :
  l ∈ source_lines src_dir
  <-> exists lines,
        (l.1, lines) ∈ src_dir /\ Str.endswith SRC_EXT l.1 = true
        /\ lines !! l.2.1 = Some l.2.2.
Proof.
  unfold source_lines. rewrite list_elem_of_In, in_flat_map. split.
  - intros ([fn lines] & [Hs Hin]%list_elem_of_In%list_elem_of_filter
            & [Hfn Hl]%list_elem_of_In%elem_of_located_lines).
    simpl in *. subst fn. exists lines. split_and!; [done| |done].
    by apply Is_true_true.
  - intros (lines & Hin & Hs & Hl). exists (l.1, lines). split.
    + apply list_elem_of_In, list_elem_of_filter. split; [|done].
      by apply Is_true_true.
    + by apply list_elem_of_In, elem_of_located_lines.
Qed.

Lemma elem_of_test_lines test_dir l :
  l ∈ test_lines test_dir
  <-> exists lines,
        (l.1, lines) ∈ test_dir /\ is_test_file (l.1, lines) = true
        /\ lines !! l.2.1 = Some l.2.2.
Proof.
  unfold test_lines. rewrite list_elem_of_In, in_flat_map. split.
  - intros ([fn lines] & [Hs Hin]%list_elem_of_In%list_elem_of_filter
            & [Hfn Hl]%list_elem_of_In%elem_of_located_lines).
    simpl in *. subst fn. exists lines. split_and!; [done| |done].
    by apply Is_true_true.
  - intros (lines & Hin & Hs & Hl). exists (l.1, lines). split.
    + apply list_elem_of_In, list_elem_of_filter. split; [|done].
      by apply Is_true_true.
    + by apply list_elem_of_In, elem_of_located_lines.
Qed.

(** X13. Every entry of the registry points at a declaration: a line of a
    [.scad] file of the source directory, at the recorded 1-based line
    number, that declares the name with the recorded kind.  And every
    declaration line of such a file has its name in the registry, unless
    the name begins with an underscore. *)
Theorem registry_sound_and_complete (src_dir : list file) :
  exists items out,
    collect src_dir [] = (Ok items, out)
    /\ (forall name filename lineno item_type,
          items !! name = Some (filename, lineno, item_type) ->
          exists lines line,
            (filename, lines) ∈ src_dir
            /\ Str.endswith SRC_EXT filename = true
            /\ 0 < lineno
            /\ lines !! (lineno - 1) = Some line
            /\ is_declaration line = true
            /\ item_name line = name
            /\ item_type_of line = item_type)
    /\ (forall filename lines linenum line,
          (filename, lines) ∈ src_dir ->
          Str.endswith SRC_EXT filename = true ->
          lines !! linenum = Some line ->
          is_declaration line = true ->
          Str.startswith "_" (item_name line) = false ->
          is_Some (items !! item_name line)).
Proof.
  destruct (collect_collected src_dir) as (items & out & Hc & Hcol).
  exists items, out. split; [done|]. split.
  - intros name filename lineno item_type Hl.
    destruct Hcol as [Hreg _]. rewrite Hreg in Hl.
    destruct (Str.startswith "_" name); [done|].
    unfold first_declaration in Hl.
    destruct (List.find _ _) as [[fn [i line]]|] eqn:Hf; [|done].
    injection Hl as <- <- <-.
    apply find_some in Hf as [Hin [Hd Hn]%declares_true].
    apply list_elem_of_In, elem_of_source_lines in Hin
      as (lines & Hin & Hs & Hline).
    simpl in *. exists lines, line.
    split_and!; try done; [lia|].
    by replace (i + 1 - 1) with i by lia.
  - intros filename lines linenum line Hin Hs Hline Hd Hp.
    apply (collected_names _ _ _ _ Hcol).
    exists (filename, (linenum, line)). split_and!; [| |done].
    + apply elem_of_source_lines. by exists lines.
    + unfold is_public_declaration. simpl. by rewrite Hd, Hp.
Qed.

Lemma registry_sound_and_complete_witness :
  exists items out,
    collect [("shapes.scad", ["// shapes"; "module box(...)"]);
             ("notes.txt", ["module ghost()"])] []
    = (Ok items, out)
    /\ (forall name filename lineno item_type,
          items !! name = Some (filename, lineno, item_type) ->
          exists lines line,
            (filename, lines)
              ∈ [("shapes.scad", ["// shapes"; "module box(...)"]);
                 ("notes.txt", ["module ghost()"])]
            /\ Str.endswith SRC_EXT filename = true
            /\ 0 < lineno
            /\ lines !! (lineno - 1) = Some line
            /\ is_declaration line = true
            /\ item_name line = name
            /\ item_type_of line = item_type)
    /\ (forall filename lines linenum line,
          (filename, lines)
            ∈ [("shapes.scad", ["// shapes"; "module box(...)"]);
               ("notes.txt", ["module ghost()"])] ->
          Str.endswith SRC_EXT filename = true ->
          lines !! linenum = Some line ->
          is_declaration line = true ->
          Str.startswith "_" (item_name line) = false ->
          is_Some (items !! item_name line)).
Proof.
  exact (registry_sound_and_complete
           [("shapes.scad", ["// shapes"; "module box(...)"]);
            ("notes.txt", ["module ghost()"])]).
Defined.

(** X14. Every coverage record points at a test: a [module test_<name>]
    line of a test file of the test directory, at the recorded 1-based
    line number, for a name the registry holds with the recorded kind.  And
    every declared name that some such line tests is covered. *)
Theorem coverage_sound_and_complete (src_dir test_dir : list file) :
  exists items out1 c out2,
    collect src_dir [] = (Ok items, out1)
    /\ correlate test_dir items out1 = (Ok c, out2)
    /\ (forall name filename lineno item_type,
          covered c !! name = Some (filename, lineno, item_type) ->
          exists lines line src_filename src_line,
            (filename, lines) ∈ test_dir
            /\ is_test_file (filename, lines) = true
            /\ 0 < lineno
            /\ lines !! (lineno - 1) = Some line
            /\ Str.startswith "module " line = true
            /\ extract 7 line = "test_" +:+ name
            /\ items !! name = Some (src_filename, src_line, item_type))
    /\ (forall name filename lines linenum line,
          is_Some (items !! name) ->
          (filename, lines) ∈ test_dir ->
          is_test_file (filename, lines) = true ->
          lines !! linenum = Some line ->
          Str.startswith "module " line = true ->
          extract 7 line = "test_" +:+ name ->
          is_Some (covered c !! name) /\ uncovered c !! name = None).
Proof.
  destruct (collect_collected src_dir) as (items & out1 & Hc & _).
  destruct (correlate_correlated_lines test_dir items out1)
    as (c & out2 & Hr & Hcor).
  exists items, out1, c, out2. split_and!; [done..| |].
  - intros name filename lineno item_type Hl.
    destruct Hcor as (Hcov & _). rewrite Hcov in Hl.
    destruct (items !! name) as [[[sf sl] ty]|] eqn:Hi; [|done].
    destruct (first_test name (test_lines test_dir))
      as [[fn [i line]]|] eqn:Hf; [|done].
    injection Hl as <- <- <-.
    apply find_some in Hf as [Hin [Hm Hn]%tests_true].
    apply list_elem_of_In, elem_of_test_lines in Hin
      as (lines & Hin & Hs & Hline).
    simpl in *. exists lines, line, sf, sl.
    split_and!; try done; [lia|].
    by replace (i + 1 - 1) with i by lia.
  - intros name filename lines linenum line Hi Hin Hs Hline Hm Hn.
    assert (is_Some (first_test name (test_lines test_dir))) as Hf.
    { apply first_test_is_Some. exists (filename, (linenum, line)).
      split; [|by apply tests_true].
      apply elem_of_test_lines. by exists lines. }
    split.
    + by apply (correlated_covered_names _ _ _ _ _ _ Hcor).
    + destruct Hcor as (_ & Hunc & _). rewrite Hunc.
      by destruct Hf as [? ->].
Qed.

Lemma coverage_sound_and_complete_witness :
  exists items out1 c out2,
    collect [("shapes.scad", ["function area(...)"])] [] = (Ok items, out1)
    /\ correlate [("test_shapes.scad", ["module test_area()"])] items out1
       = (Ok c, out2)
    /\ (forall name filename lineno item_type,
          covered c !! name = Some (filename, lineno, item_type) ->
          exists lines line src_filename src_line,
            (filename, lines) ∈ [("test_shapes.scad", ["module test_area()"])]
            /\ is_test_file (filename, lines) = true
            /\ 0 < lineno
            /\ lines !! (lineno - 1) = Some line
            /\ Str.startswith "module " line = true
            /\ extract 7 line = "test_" +:+ name
            /\ items !! name = Some (src_filename, src_line, item_type))
    /\ (forall name filename lines linenum line,
          is_Some (items !! name) ->
          (filename, lines) ∈ [("test_shapes.scad", ["module test_area()"])] ->
          is_test_file (filename, lines) = true ->
          lines !! linenum = Some line ->
          Str.startswith "module " line = true ->
          extract 7 line = "test_" +:+ name ->
          is_Some (covered c !! name) /\ uncovered c !! name = None).
Proof.
  exact (coverage_sound_and_complete
           [("shapes.scad", ["function area(...)"])]
           [("test_shapes.scad", ["module test_area()"])]).
Defined.
